(** * wordle_stats.py: extraction and aggregation of Wordle results

    A shallow embedding of [parse_html_files], [calculate_statistics],
    [calculate_head_to_head], [plot_statistics], [print_summary] and the
    head-to-head report of the main block of [wordle_stats.py], with the
    properties of the specification stated and proved over it, and
    further properties of the code after them.

    Conventions of the embedding.
    - A Python [str] is the list of its Unicode code points.
    - A Python [int] is a [Z].
    - A Python exception that leaves a function is the [Raise] case of
      [result]; the message of the exception is not kept.
    - A [dict] or [defaultdict] is a [gmap]; a missing key of a
      [defaultdict] is read through an explicit default.  The insertion
      order of a dict is not kept: the source only folds commutative
      tallies over [items()] and sorts [keys()] before printing.
    - The HTML tree is taken after BeautifulSoup has parsed it: a
      document is the list of its [div.message] elements, each reduced to
      the three lookups the source performs on it.
    - [print] is not modelled; [print_summary] and the report of the main
      block return the values they would format.
    - The drawing calls of matplotlib are not modelled; [plot_statistics]
      returns the numbers it computes for them.
    - A float is the exact quotient it approximates: the rounding to a
      double is not modelled, the exceptions of [int / int] and of the
      conversion of an int to a float are. *)

From Stdlib Require Import ZArith NArith Ascii String QArith Qcanon.
From stdpp Require Import gmap list sorting.

Local Open Scope Z_scope.

(** ** Strings *)

Abbreviation codepoint := N.
Abbreviation str := (list codepoint).

(** The code points of an ASCII literal of the source. *)
Definition lit (s : string) : str := N_of_ascii <$> list_ascii_of_string s.

Definition chr (s : string) : codepoint :=
  match lit s with c :: _ => c | [] => 0%N end.

(** ** Exceptions *)

Inductive exn := ValueError | ZeroDivisionError | OverflowError.

Inductive result (A : Type) :=
| Ok (a : A)
| Raise (e : exn).
Arguments Ok {A} a.
Arguments Raise {A} e.

Global Instance result_ret : MRet result := λ A a, Ok a.
Global Instance result_bind : MBind result := λ A B f m,
  match m with Ok a => f a | Raise e => Raise e end.

Global Instance exn_eq_dec : EqDecision exn.
Proof. solve_decision. Defined.

(** ** The interpreter's tables

    [\d], [\s], [\w], [str.strip] and [int] classify code points with the
    Unicode database of the interpreter, which depends on its version.
    On ASCII the classes are fixed and written out below; above ASCII
    they are fields of [Runtime], with the two facts about them that the
    proofs use.  [int_max_str_digits] is the interpreter's limit on the
    length of a decimal literal given to [int] (zero: no limit). *)

Class Runtime := {
  uni_isdecimal : codepoint → bool;
  uni_todecimal : codepoint → Z;
  uni_isspace : codepoint → bool;
  uni_isalnum : codepoint → bool;
  int_max_str_digits : nat;
  uni_todecimal_range c : uni_isdecimal c = true → 0 ≤ uni_todecimal c ≤ 9;
  uni_decimal_not_space c : uni_isdecimal c = true → uni_isspace c = false;
}.

Definition in_range (lo hi c : codepoint) : bool := ((lo <=? c) && (c <=? hi))%N.
Arguments in_range (lo hi c)%_N_scope.

Definition ascii_isdecimal (c : codepoint) : bool := in_range 48 57 c.
Definition ascii_isspace (c : codepoint) : bool := in_range 9 13 c || in_range 28 32 c.
Definition ascii_isalnum (c : codepoint) : bool :=
  in_range 48 57 c || in_range 65 90 c || in_range 97 122 c.

Section Classes.
Context {R : Runtime}.

(** [\d]: the decimal digits (category Nd). *)
Definition isdecimal (c : codepoint) : bool :=
  if (c <? 128)%N then ascii_isdecimal c else uni_isdecimal c.

Definition todecimal (c : codepoint) : Z :=
  if (c <? 128)%N then Z.of_N c - 48 else uni_todecimal c.

(** [\s] and the characters [str.strip] removes. *)
Definition isspace (c : codepoint) : bool :=
  if (c <? 128)%N then ascii_isspace c else uni_isspace c.

(** [\w]: alphanumeric or underscore. *)
Definition isword (c : codepoint) : bool :=
  (if (c <? 128)%N then ascii_isalnum c else uni_isalnum c) || (c =? 95)%N.
End Classes.

(** A runtime whose database stops at ASCII, with the default limit. *)
Definition ascii_runtime : Runtime := {|
  uni_isdecimal := λ _, false;
  uni_todecimal := λ _, 0;
  uni_isspace := λ _, false;
  uni_isalnum := λ _, false;
  int_max_str_digits := 4300;
  uni_todecimal_range := λ _ (H : false = true), False_ind _ (Bool.diff_false_true H);
  uni_decimal_not_space := λ _ _, eq_refl;
|}.

(** ** String methods *)

Fixpoint take_while {A} (p : A → bool) (l : list A) : list A :=
  match l with
  | x :: l' => if p x then x :: take_while p l' else []
  | [] => []
  end.

Fixpoint drop_while {A} (p : A → bool) (l : list A) : list A :=
  match l with
  | x :: l' => if p x then drop_while p l' else l
  | [] => []
  end.

(** Both ends stripped of the characters of class [p]. *)
Definition strip_with (p : codepoint → bool) (s : str) : str :=
  reverse (drop_while p (reverse (drop_while p s))).

(** [s.strip()] *)
Definition strip {R : Runtime} (s : str) : str := strip_with isspace s.

(** [s.replace(",", "")] *)
Definition remove_commas (s : str) : str :=
  filter (λ c, c ≠ chr ",") s.

(** ** [int(s)] of a string

    Optional whitespace, an optional sign, decimal digits with single
    underscores between them, optional whitespace.  Below code point 127
    the white space of [int] is that of C; above it is Unicode's. *)

Section Int.
Context {R : Runtime}.

Definition int_isspace (c : codepoint) : bool :=
  if (c <? 127)%N then in_range 9 13 c || (c =? 32)%N else isspace c.

(** The digits after the sign: the value read so far, the number of
    digits, and whether the previous character was a digit. *)
Fixpoint int_digits (s : str) (acc : Z) (n : nat) (after_digit : bool)
  : option (Z * nat) :=
  match s with
  | [] => if after_digit then Some (acc, n) else None
  | c :: s' =>
      if (c =? chr "_")%N then
        if after_digit then int_digits s' acc n false else None
      else if isdecimal c then int_digits s' (10 * acc + todecimal c) (S n) true
      else None
  end.

Definition exceeds_limit (n : nat) : bool :=
  (640 <? n)%nat && (0 <? int_max_str_digits)%nat && (int_max_str_digits <? n)%nat.

Definition py_int (s : str) : result Z :=
  let s := strip_with int_isspace s in
  let '(neg, s) :=
    match s with
    | c :: s' =>
        if (c =? chr "+")%N then (false, s')
        else if (c =? chr "-")%N then (true, s')
        else (false, s)
    | [] => (false, s)
    end in
  match int_digits s 0 0 false with
  | Some (v, n) =>
      if exceeds_limit n then Raise ValueError
      else Ok (if neg then - v else v)
  | None => Raise ValueError
  end.
End Int.

(** ** Regular expressions

    The three patterns of the source are sequences of literal
    characters, character classes, greedy [+] repetitions of a class and
    groups that do not nest.  [re_exec] is the backtracking matcher for
    that fragment, anchored at the start of its input. *)

Inductive item :=
| Lit (c : codepoint)
| Cls (p : codepoint → bool)
| Plus (p : codepoint → bool)
| GOpen
| GClose.

Abbreviation regex := (list item).

(** [cur] holds, reversed, the characters read since the last [GOpen];
    [gs] the closed groups, last first.  The result is the groups in
    order and the rest of the input. *)
Fixpoint re_exec (re : regex) (s : str) (cur : str) (gs : list str)
  : option (list str * str) :=
  match re with
  | [] => Some (reverse gs, s)
  | Lit c :: re' =>
      match s with
      | x :: s' => if (x =? c)%N then re_exec re' s' (x :: cur) gs else None
      | [] => None
      end
  | Cls p :: re' =>
      match s with
      | x :: s' => if p x then re_exec re' s' (x :: cur) gs else None
      | [] => None
      end
  | Plus p :: re' =>
      (fix try (k : nat) : option (list str * str) :=
         match k with
         | O => None
         | S k' =>
             match re_exec re' (drop k s) (reverse (take k s) ++ cur) gs with
             | Some r => Some r
             | None => try k'
             end
         end) (length (take_while p s))
  | GOpen :: re' => re_exec re' s [] gs
  | GClose :: re' => re_exec re' s cur (reverse cur :: gs)
  end.

(** [re.match(re, s)]: the groups of the match at the start of [s]. *)
Definition re_match (re : regex) (s : str) : option (list str) :=
  fst <$> re_exec re s [] [].

(** [re.search(re, s)]: the groups of the leftmost match. *)
Fixpoint re_search (re : regex) (s : str) : option (list str) :=
  match re_exec re s [] [] with
  | Some (gs, _) => Some gs
  | None =>
      match s with
      | _ :: s' => re_search re s'
      | [] => None
      end
  end.

(** [re.sub(re, "", s)]: every leftmost non-overlapping match removed.
    [skip] counts the characters of the current match still to drop.  A
    match of length zero, replaced by the empty string, changes nothing. *)
Fixpoint re_remove_from (re : regex) (s : str) (skip : nat) : str :=
  match s with
  | [] => []
  | c :: s' =>
      match skip with
      | S k => re_remove_from re s' k
      | O =>
          match re_exec re s [] [] with
          | Some (_, rest) =>
              match (length s - length rest)%nat with
              | S k => re_remove_from re s' k
              | O => c :: re_remove_from re s' 0
              end
          | None => c :: re_remove_from re s' 0
          end
      end
  end.

Definition re_remove (re : regex) (s : str) : str := re_remove_from re s 0.

(** ** The patterns of the source *)

Section Patterns.
Context {R : Runtime}.

(** The classes [[\d,]] and [[X\d]]. *)
Definition digit_or_comma (c : codepoint) : bool := isdecimal c || (c =? chr ",")%N.
Definition digit_or_X (c : codepoint) : bool := (c =? chr "X")%N || isdecimal c.

(** [Wordle ([\d,]+) ([X\d])/6] *)
Definition wordle_re : regex :=
  (Lit <$> lit "Wordle ")
  ++ [GOpen; Plus digit_or_comma; GClose;
      Lit (chr " ");
      GOpen; Cls digit_or_X; GClose;
      Lit (chr "/"); Lit (chr "6")].

(** [(\d{2})\.(\d{2})\.(\d{4})] *)
Definition date_re : regex :=
  [GOpen; Cls isdecimal; Cls isdecimal; GClose; Lit (chr ".");
   GOpen; Cls isdecimal; Cls isdecimal; GClose; Lit (chr ".");
   GOpen; Cls isdecimal; Cls isdecimal; Cls isdecimal; Cls isdecimal; GClose].

(** [\s+via\s+@\w+] *)
Definition via_re : regex :=
  [Plus isspace] ++ (Lit <$> lit "via") ++ [Plus isspace; Lit (chr "@"); Plus isword].

End Patterns.

(** ** [datetime(year, month, day)] *)

Record datetime := { dt_year : Z; dt_month : Z; dt_day : Z }.

Definition is_leap (y : Z) : bool :=
  (y mod 4 =? 0) && (negb (y mod 100 =? 0) || (y mod 400 =? 0)).

Definition days_in_month (y m : Z) : Z :=
  if m =? 2 then (if is_leap y then 29 else 28)
  else if (m =? 4) || (m =? 6) || (m =? 9) || (m =? 11) then 30
  else 31.

Definition valid_date (y m d : Z) : bool :=
  (1 <=? y) && (y <=? 9999) && (1 <=? m) && (m <=? 12)
  && (1 <=? d) && (d <=? days_in_month y m).

Definition new_datetime (y m d : Z) : result datetime :=
  if valid_date y m d then Ok {| dt_year := y; dt_month := m; dt_day := d |}
  else Raise ValueError.

(** ** [parse_html_files] *)

(** A [div.message] element as the loop reads it: the text of its
    [div.from_name], the text of its [div.text], and the [title]
    attribute of its [div.details] (each absent when [find] or [get]
    gives [None]). *)
Record message := {
  from_name : option str;
  text : option str;
  details : option (option str);
}.

(** The dict appended to [results]. *)
Record wordle_result := {
  player : str;
  puzzle_num : Z;
  attempts : str;
  date : datetime;
  year : Z;
}.

Section Extractor.
Context {R : Runtime}.

(** Lines 32-35: the current player after the [from_name] of [msg]. *)
Definition next_player (current_player : option str) (msg : message) : option str :=
  match from_name msg with
  | Some name => Some (re_remove via_re (strip name))
  | None => current_player
  end.

(** The [n]-th group of a match. *)
Definition group (gs : list str) (n : nat) : str := default [] (gs !! pred n).

(** Lines 38-70: what one message adds to [results]. *)
Definition extract (current_player : option str) (msg : message)
  : result (option wordle_result) :=
  match text msg with
  | None => Ok None
  | Some txt =>
      match re_search wordle_re txt, current_player with
      | Some wordle_match, Some ((_ :: _) as current_player) =>
          puzzle_num ← py_int (remove_commas (group wordle_match 1));
          let attempts := group wordle_match 2 in
          match details msg with
          | Some (Some ((_ :: _) as date_str)) =>
              match re_match date_re date_str with
              | Some date_match =>
                  let day := group date_match 1 in
                  let month := group date_match 2 in
                  let year := group date_match 3 in
                  y ← py_int year;
                  m ← py_int month;
                  d ← py_int day;
                  date ← new_datetime y m d;
                  Ok (Some {| player := current_player;
                              puzzle_num := puzzle_num;
                              attempts := attempts;
                              date := date;
                              year := dt_year date |})
              | None => Ok None
              end
          | _ => Ok None
          end
      | _, _ => Ok None
      end
  end.

(** Lines 29-70: the loop over the messages of one file. *)
Fixpoint messages_loop (messages : list message) (current_player : option str)
    (results : list wordle_result) : result (list wordle_result) :=
  match messages with
  | [] => Ok results
  | msg :: messages' =>
      let current_player := next_player current_player msg in
      r ← extract current_player msg;
      messages_loop messages' current_player (results ++ option_list r)
  end.

(** Lines 21-70: the loop over the files, in the order [sorted] gives. *)
Fixpoint files_loop (files : list (list message)) (results : list wordle_result)
  : result (list wordle_result) :=
  match files with
  | [] => Ok results
  | messages :: files' =>
      results ← messages_loop messages None results;
      files_loop files' results
  end.

Definition parse_html_files (files : list (list message)) : result (list wordle_result) :=
  files_loop files [].

End Extractor.

(** ** [calculate_statistics] *)

(** The dict a missing [stats[player][year]] starts from. *)
Record year_stats := {
  total : Z;
  wins : Z;
  losses : Z;
  attempts_dist : gmap Z Z;
  total_attempts : Z;
}.

Definition new_year_stats : year_stats :=
  {| total := 0; wins := 0; losses := 0; attempts_dist := ∅; total_attempts := 0 |}.

Abbreviation stats_map := (gmap str (gmap Z year_stats)).

(** [stats[player][year]], read through the two defaults. *)
Definition get_year_stats (stats : stats_map) (player : str) (year : Z) : year_stats :=
  default new_year_stats (default ∅ (stats !! player) !! year).

(** [stats[player][year]] after the statements of one iteration. *)
Definition set_year_stats (stats : stats_map) (player : str) (year : Z)
    (ys : year_stats) : stats_map :=
  <[player := <[year := ys]> (default ∅ (stats !! player))]> stats.

Section Statistics.
Context {R : Runtime}.

(** Lines 90-102: the body of the loop. *)
Definition add_result (stats : stats_map) (r : wordle_result) : result stats_map :=
  let ys := get_year_stats stats (player r) (year r) in
  let ys := {| total := total ys + 1; wins := wins ys; losses := losses ys;
               attempts_dist := attempts_dist ys;
               total_attempts := total_attempts ys |} in
  if decide (attempts r = lit "X") then
    Ok (set_year_stats stats (player r) (year r)
          {| total := total ys; wins := wins ys; losses := losses ys + 1;
             attempts_dist := attempts_dist ys;
             total_attempts := total_attempts ys |})
  else
    attempts_num ← py_int (attempts r);
    Ok (set_year_stats stats (player r) (year r)
          {| total := total ys; wins := wins ys + 1; losses := losses ys;
             attempts_dist :=
               <[attempts_num := default 0 (attempts_dist ys !! attempts_num) + 1]>
                 (attempts_dist ys);
             total_attempts := total_attempts ys + attempts_num |}).

Fixpoint statistics_loop (results : list wordle_result) (stats : stats_map)
  : result stats_map :=
  match results with
  | [] => Ok stats
  | r :: results' =>
      stats ← add_result stats r;
      statistics_loop results' stats
  end.

Definition calculate_statistics (results : list wordle_result) : result stats_map :=
  statistics_loop results ∅.

End Statistics.

(** ** [calculate_head_to_head] *)

Record h2h := { hugo_wins : Z; sylvain_wins : Z; ties : Z }.

Definition new_h2h : h2h := {| hugo_wins := 0; sylvain_wins := 0; ties := 0 |}.

Definition hugo : str := lit "Hugo Ledoux".
Definition sylvain : str := lit "Sylvain Roy".

Abbreviation puzzles_map := (gmap Z (gmap Z (gmap str Z))).

(** Lines 131-140: one entry of [puzzles[year]]. *)
Definition compare_players (year : Z) (players : gmap str Z) (h2h_stats : gmap Z h2h)
  : gmap Z h2h :=
  match players !! hugo, players !! sylvain with
  | Some hugo_attempts, Some sylvain_attempts =>
      let h := default new_h2h (h2h_stats !! year) in
      if hugo_attempts <? sylvain_attempts then
        <[year := {| hugo_wins := hugo_wins h + 1; sylvain_wins := sylvain_wins h;
                     ties := ties h |}]> h2h_stats
      else if sylvain_attempts <? hugo_attempts then
        <[year := {| hugo_wins := hugo_wins h; sylvain_wins := sylvain_wins h + 1;
                     ties := ties h |}]> h2h_stats
      else
        <[year := {| hugo_wins := hugo_wins h; sylvain_wins := sylvain_wins h;
                     ties := ties h + 1 |}]> h2h_stats
  | _, _ => h2h_stats
  end.

(** Lines 130-140: the loop over the puzzles of one year. *)
Definition compare_year (year : Z) (year_puzzles : gmap Z (gmap str Z))
    (h2h_stats : gmap Z h2h) : gmap Z h2h :=
  map_fold (λ _ players acc, compare_players year players acc) h2h_stats year_puzzles.

(** Lines 127-140: the loop over the years. *)
Definition compare_all (puzzles : puzzles_map) : gmap Z h2h :=
  map_fold compare_year ∅ puzzles.

Section HeadToHead.
Context {R : Runtime}.

(** Lines 119-122. *)
Definition attempts_val (attempts : str) : result Z :=
  if decide (attempts = lit "X") then Ok 7 else py_int attempts.

(** Lines 113-124: the body of the first loop. *)
Definition group_result (puzzles : puzzles_map) (r : wordle_result) : result puzzles_map :=
  v ← attempts_val (attempts r);
  let year_puzzles := default ∅ (puzzles !! year r) in
  let players := default ∅ (year_puzzles !! puzzle_num r) in
  Ok (<[year r := <[puzzle_num r := <[player r := v]> players]> year_puzzles]> puzzles).

Fixpoint puzzles_loop (results : list wordle_result) (puzzles : puzzles_map)
  : result puzzles_map :=
  match results with
  | [] => Ok puzzles
  | r :: results' =>
      puzzles ← group_result puzzles r;
      puzzles_loop results' puzzles
  end.

Definition calculate_head_to_head (results : list wordle_result) : result (gmap Z h2h) :=
  puzzles ← puzzles_loop results ∅;
  Ok (compare_all puzzles).

End HeadToHead.

(** ** The reports *)

(** [a / b] of two ints: a float.  The quotient is kept exact; the
    rounding to a double is not modelled, the two exceptions are. *)
Definition float_overflow : Z := 2 ^ 1024 - 2 ^ 970.

Definition true_div (a b : Z) : result Qc :=
  if b =? 0 then Raise ZeroDivisionError
  else if float_overflow * Z.abs b <=? Z.abs a then Raise OverflowError
  else Ok (Qc_of_Z a / Qc_of_Z b)%Qc.

(** [sorted(d.keys())] for string keys and for int keys. *)
Fixpoint str_leb (a b : str) : bool :=
  match a, b with
  | [], _ => true
  | _ :: _, [] => false
  | x :: a', y :: b' =>
      if (x <? y)%N then true else if (y <? x)%N then false else str_leb a' b'
  end.

Definition str_le (a b : str) : Prop := str_leb a b = true.

Global Instance str_le_dec a b : Decision (str_le a b).
Proof. unfold str_le. apply _. Defined.

Definition sorted_players {V} (d : gmap str V) : list str :=
  merge_sort str_le (map_to_list d).*1.

Definition sorted_years {V} (d : gmap Z V) : list Z :=
  merge_sort Z.le (map_to_list d).*1.

(** What [print_summary] prints for one year of one player. *)
Record summary := {
  s_year : Z;
  s_total : Z;
  s_wins : Z;
  s_win_rate : Qc;
  s_losses : Z;
  s_avg_attempts : Qc;
  s_distribution : list (Z * Z);
}.

(** Lines 394-411. *)
Definition summarize (year : Z) (year_stats : year_stats) : result summary :=
  let total := total year_stats in
  let wins := wins year_stats in
  let losses := losses year_stats in
  win_rate ← (if 0 <? total then q ← true_div wins total; Ok (q * Qc_of_Z 100)%Qc else Ok 0%Qc);
  avg_attempts ← (if 0 <? wins then true_div (total_attempts year_stats) wins else Ok 0%Qc);
  Ok {| s_year := year; s_total := total; s_wins := wins; s_win_rate := win_rate;
        s_losses := losses; s_avg_attempts := avg_attempts;
        s_distribution :=
          filter (λ ic, 0 < ic.2)
            ((λ i, (i, default 0 (attempts_dist year_stats !! i))) <$> seqZ 1 6) |}.

(** Lines 389-411. *)
Definition print_summary (stats : stats_map) : result (list (str * list summary)) :=
  mapM (λ player,
          let player_stats := default ∅ (stats !! player) in
          rows ← mapM (λ year, summarize year (default new_year_stats (player_stats !! year)))
                      (sorted_years player_stats);
          Ok (player, rows))
       (sorted_players stats).

(** What the main block prints for one year of the head-to-head. *)
Record h2h_line := {
  l_year : Z;
  l_hugo_pct : Qc;
  l_sylvain_pct : Qc;
  l_ties_pct : Qc;
  l_total : Z;
}.

(** Lines 432-442. *)
Definition report_year (year : Z) (h : h2h) : result h2h_line :=
  let total := hugo_wins h + sylvain_wins h + ties h in
  hugo_q ← true_div (hugo_wins h) total;
  sylvain_q ← true_div (sylvain_wins h) total;
  ties_q ← true_div (ties h) total;
  Ok {| l_year := year; l_hugo_pct := (hugo_q * Qc_of_Z 100)%Qc;
        l_sylvain_pct := (sylvain_q * Qc_of_Z 100)%Qc; l_ties_pct := (ties_q * Qc_of_Z 100)%Qc;
        l_total := total |}.

(** Lines 431-442. *)
Definition report_head_to_head (h2h_stats : gmap Z h2h) : result (list h2h_line) :=
  mapM (λ year, report_year year (default new_h2h (h2h_stats !! year)))
       (sorted_years h2h_stats).

(** ** [plot_statistics]

    The drawing calls are not modelled: [plot_statistics] returns the
    numbers it computes for them, chart by chart. *)

(** Lines 150-152: [sorted(set(...))] of the years of all the players. *)
Definition all_years (stats : stats_map) : list Z :=
  merge_sort Z.le
    (elements (map_fold (λ _ player_stats (acc : gset Z), dom player_stats ∪ acc) ∅ stats)).

(** Lines 170-173: the bars of a player in the first chart. *)
Definition totals (player_stats : gmap Z year_stats) (all_years : list Z) : list Z :=
  (λ year, match player_stats !! year with
           | Some year_stats => total year_stats
           | None => 0
           end) <$> all_years.

(** Lines 208-216: the bars of a player in the second chart. *)
Definition avg_attempts (player_stats : gmap Z year_stats) (all_years : list Z)
  : result (list Qc) :=
  mapM (λ year, match player_stats !! year with
                | Some year_stats =>
                    if 0 <? wins year_stats
                    then true_div (total_attempts year_stats) (wins year_stats)
                    else Ok 0%Qc
                | None => Ok 0%Qc
                end) all_years.

(** [dist[i] += v]; the source only uses indices below the length. *)
Definition add_at (dist : list Z) (i : nat) (v : Z) : list Z :=
  <[i := default 0 (dist !! i) + v]> dist.

(** Lines 256-264: the seven bars of a player in the third chart. *)
Definition distribution (player_stats : gmap Z year_stats) (all_years : list Z) : list Z :=
  fold_left (λ dist year,
               match player_stats !! year with
               | Some year_stats =>
                   let dist :=
                     fold_left (λ dist attempt_num,
                                  add_at dist (Z.to_nat (attempt_num - 1))
                                    (default 0 (attempts_dist year_stats !! attempt_num)))
                               (seqZ 1 6) dist in
                   add_at dist 6 (losses year_stats)
               | None => dist
               end)
            all_years (replicate 7 0).

(** Lines 301-308: one of the three series of the fourth chart. *)
Definition h2h_series (field : h2h → Z) (h2h_stats : gmap Z h2h) (all_years : list Z)
  : list Z :=
  (λ year, match h2h_stats !! year with
           | Some h => field h
           | None => 0
           end) <$> all_years.

(** [float(a)] of an int, as [int + float] converts its left operand. *)
Definition int_to_float (a : Z) : result Qc :=
  if float_overflow <=? Z.abs a then Raise OverflowError else Ok (Qc_of_Z a).

(** A text of the fourth chart: the count, the percentage and the
    height it is written at. *)
Record label := { lb_count : Z; lb_pct : Qc; lb_y_pos : Qc }.

(** Lines 322-367: the texts of one year, from the bottom. *)
Definition year_labels (hugo_wins sylvain_wins ties : Z) : result (list label) :=
  let total := hugo_wins + ties + sylvain_wins in
  if 0 <? total then
    hugo_label ←
      (if 0 <? hugo_wins then
         q ← true_div hugo_wins total;
         y_pos_hugo ← true_div hugo_wins 2;
         Ok [{| lb_count := hugo_wins; lb_pct := (q * Qc_of_Z 100)%Qc;
                lb_y_pos := y_pos_hugo |}]
       else Ok []);
    sylvain_label ←
      (if 0 <? sylvain_wins then
         q ← true_div sylvain_wins total;
         half ← true_div sylvain_wins 2;
         below ← int_to_float hugo_wins;
         Ok [{| lb_count := sylvain_wins; lb_pct := (q * Qc_of_Z 100)%Qc;
                lb_y_pos := (below + half)%Qc |}]
       else Ok []);
    ties_label ←
      (if 0 <? ties then
         q ← true_div ties total;
         half ← true_div ties 2;
         below ← int_to_float (hugo_wins + sylvain_wins);
         Ok [{| lb_count := ties; lb_pct := (q * Qc_of_Z 100)%Qc;
                lb_y_pos := (below + half)%Qc |}]
       else Ok []);
    Ok (hugo_label ++ sylvain_label ++ ties_label)
  else Ok [].

(** What [plot_statistics] draws. *)
Record plot_data := {
  p_players : list str;
  p_all_years : list Z;
  p_totals : list (str * list Z);
  p_avg_attempts : list (str * list Qc);
  p_dist : list (str * list Z);
  p_hugo_wins : list Z;
  p_sylvain_wins : list Z;
  p_ties : list Z;
  p_bottom_ties : list Z;
  p_labels : list (list label);
}.

(** Lines 147-367. *)
Definition plot_statistics (stats : stats_map) (h2h_stats : gmap Z h2h) : result plot_data :=
  let players := sorted_players stats in
  let all_years := all_years stats in
  let chart1 := (λ player, (player, totals (default ∅ (stats !! player)) all_years))
                  <$> players in
  chart2 ← mapM (λ player,
                   avg ← avg_attempts (default ∅ (stats !! player)) all_years;
                   Ok (player, avg))
                players;
  let chart3 := (λ player, (player, distribution (default ∅ (stats !! player)) all_years))
                  <$> players in
  let hugo_wins := h2h_series hugo_wins h2h_stats all_years in
  let sylvain_wins := h2h_series sylvain_wins h2h_stats all_years in
  let ties := h2h_series ties h2h_stats all_years in
  let bottom_ties := zip_with Z.add hugo_wins sylvain_wins in
  labels ← mapM (λ i, year_labels (default 0 (hugo_wins !! i))
                        (default 0 (sylvain_wins !! i)) (default 0 (ties !! i)))
                (seq 0 (length all_years));
  Ok {| p_players := players; p_all_years := all_years; p_totals := chart1;
        p_avg_attempts := chart2; p_dist := chart3; p_hugo_wins := hugo_wins;
        p_sylvain_wins := sylvain_wins; p_ties := ties; p_bottom_ties := bottom_ties;
        p_labels := labels |}.

(** * Vocabulary of the specification *)


(** What the pattern lets through: a single character, [X] or a decimal digit. *)
Definition attempts_token {R : Runtime} (a : str) : Prop :=
  ∃ c, a = [c] ∧ (c = chr "X" ∨ isdecimal c = true).

(** The number a string of decimal digits denotes. *)
Definition decimal_value {R : Runtime} (s : str) : Z :=
  fold_left (λ acc c, 10 * acc + todecimal c) s 0.

(** A message with every part present, from ASCII literals. *)
Definition sample_message (name body title : string) : message :=
  {| from_name := Some (lit name); text := Some (lit body);
     details := Some (Some (lit title)) |}.

Definition sample_result (name : string) (num : Z) (tok : string) (y m d : Z)
  : wordle_result :=
  {| player := lit name; puzzle_num := num; attempts := lit tok;
     date := {| dt_year := y; dt_month := m; dt_day := d |}; year := y |}.

(** Sample inputs: a result of seven attempts, puzzle number zero, and
    a puzzle number made of a comma alone. *)
Definition seven_attempts : list (list message) :=
  [[sample_message "Hugo Ledoux" "Wordle 798 7/6" "26.08.2023 08:38:51 UTC+01:00"]].

Definition puzzle_zero : list (list message) :=
  [[sample_message "Hugo Ledoux" "Wordle 0 3/6" "26.08.2023 08:38:51 UTC+01:00"]].

Definition comma_only : message :=
  sample_message "Hugo Ledoux" "Wordle , 3/6" "26.08.2023 08:38:51 UTC+01:00".




(** [sum(d.values())] *)
Definition dist_sum (d : gmap Z Z) : Z := map_fold (λ _ v acc, v + acc) 0 d.

(** What one result counts as: a loss, or a win in [n] attempts. *)
Inductive tally := Loss | Win (n : Z).

Definition tally_of {R : Runtime} (a : str) : result tally :=
  if decide (a = lit "X") then Ok Loss else n ← py_int a; Ok (Win n).

(** A bucket after one more result. *)
Definition count (t : tally) (ys : year_stats) : year_stats :=
  match t with
  | Loss =>
      {| total := total ys + 1; wins := wins ys; losses := losses ys + 1;
         attempts_dist := attempts_dist ys; total_attempts := total_attempts ys |}
  | Win n =>
      {| total := total ys + 1; wins := wins ys + 1; losses := losses ys;
         attempts_dist := <[n := default 0 (attempts_dist ys !! n) + 1]> (attempts_dist ys);
         total_attempts := total_attempts ys + n |}
  end.

(** A property of every bucket of [stats]. *)
Definition all_buckets (P : year_stats → Prop) (stats : stats_map) : Prop :=
  ∀ player years yr ys, stats !! player = Some years → years !! yr = Some ys → P ys.

(** The invariant of a bucket. *)
Definition balanced (ys : year_stats) : Prop :=
  wins ys + losses ys = total ys ∧ dist_sum (attempts_dist ys) = wins ys.

(** The bounds of a bucket whose wins took at most 9 attempts each. *)
Definition bounded (ys : year_stats) : Prop :=
  0 ≤ wins ys ∧ 0 ≤ losses ys ∧ wins ys + losses ys = total ys
  ∧ 0 ≤ total_attempts ys ≤ 9 * wins ys.

(** A loss, or a win in at most 9 attempts. *)
Definition one_digit (t : tally) : Prop :=
  match t with Loss => True | Win n => 0 ≤ n ≤ 9 end.

(** Five results of two players over two years. *)
Definition sample_results : list wordle_result :=
  [sample_result "Hugo Ledoux" 798 "3" 2023 8 26;
   sample_result "Sylvain Roy" 798 "X" 2023 8 26;
   sample_result "Hugo Ledoux" 799 "X" 2023 8 27;
   sample_result "Hugo Ledoux" 800 "3" 2023 8 28;
   sample_result "Sylvain Roy" 1292 "6" 2024 12 31].

(** [puzzles[year][puzzle_num][player]], when the three keys are there. *)
Definition entry (puzzles : puzzles_map) (yr num : Z) (pl : str) : option Z :=
  year_puzzles ← puzzles !! yr; players ← year_puzzles !! num; players !! pl.

(** How the two participants compare on one puzzle, when both played. *)
Definition versus (players : gmap str Z) : option comparison :=
  match players !! hugo, players !! sylvain with
  | Some a, Some b => Some (a ?= b)
  | _, _ => None
  end.

(** One more puzzle in the tallies: [Lt] is a win of the first. *)
Definition score (c : comparison) (h : h2h) : h2h :=
  match c with
  | Lt => {| hugo_wins := hugo_wins h + 1; sylvain_wins := sylvain_wins h; ties := ties h |}
  | Gt => {| hugo_wins := hugo_wins h; sylvain_wins := sylvain_wins h + 1; ties := ties h |}
  | Eq => {| hugo_wins := hugo_wins h; sylvain_wins := sylvain_wins h; ties := ties h + 1 |}
  end.

(** The tallies of a year, all zero when the year has no entry. *)
Definition year_h2h (h2h_stats : gmap Z h2h) (yr : Z) : h2h :=
  default new_h2h (h2h_stats !! yr).

(** The puzzles of a year that compare as [c], and those both played. *)
Definition tallied (c : comparison) (year_puzzles : gmap Z (gmap str Z)) : nat :=
  size (filter (λ kv, versus kv.2 = Some c) year_puzzles).

Definition compared (year_puzzles : gmap Z (gmap str Z)) : nat :=
  size (filter (λ kv, is_Some (versus kv.2)) year_puzzles).

(** [h2h_stats] holds for [yr] the tallies of [year_puzzles]. *)
Definition tallies (h2h_stats : gmap Z h2h) (yr : Z)
    (year_puzzles : gmap Z (gmap str Z)) : Prop :=
  hugo_wins (year_h2h h2h_stats yr) = Z.of_nat (tallied Lt year_puzzles)
  ∧ sylvain_wins (year_h2h h2h_stats yr) = Z.of_nat (tallied Gt year_puzzles)
  ∧ ties (year_h2h h2h_stats yr) = Z.of_nat (tallied Eq year_puzzles)
  ∧ hugo_wins (year_h2h h2h_stats yr) + sylvain_wins (year_h2h h2h_stats yr)
    + ties (year_h2h h2h_stats yr) = Z.of_nat (compared year_puzzles)
  ∧ (h2h_stats !! yr = None ↔ compared year_puzzles = 0%nat).

(** The results of one player for one puzzle of one year. *)
Definition same_key (yr num : Z) (pl : str) (r : wordle_result) : Prop :=
  year r = yr ∧ puzzle_num r = num ∧ player r = pl.

Global Instance same_key_dec yr num pl r : Decision (same_key yr num pl r).
Proof. unfold same_key. apply _. Defined.

(** The [attempts] of the last of them. *)
Definition last_attempts (results : list wordle_result) (yr num : Z) (pl : str)
  : option str :=
  attempts <$> last (filter (same_key yr num pl) results).

(** The puzzles of a year a player has a result for, and those both
    participants have one for. *)
Definition played (results : list wordle_result) (yr : Z) (pl : str) : gset Z :=
  list_to_set (puzzle_num <$> filter (λ r, year r = yr ∧ player r = pl) results).

Definition played_by_both (results : list wordle_result) (yr : Z) : gset Z :=
  played results yr hugo ∩ played results yr sylvain.

(** The number [attempts_val] gives, when it gives one. *)
Definition value_of {R : Runtime} (a : str) : option Z :=
  match attempts_val a with Ok v => Some v | Raise _ => None end.

(** How the last results of the two participants for a puzzle compare. *)
Definition duel {R : Runtime} (results : list wordle_result) (yr num : Z)
  : option comparison :=
  match last_attempts results yr num hugo ≫= value_of,
        last_attempts results yr num sylvain ≫= value_of with
  | Some x, Some y => Some (x ?= y)
  | _, _ => None
  end.

(** The results of one player in one year. *)
Definition results_of (results : list wordle_result) (pl : str) (yr : Z)
  : list wordle_result :=
  filter (λ r, player r = pl ∧ year r = yr) results.

(** The number of attempts of a result that counts as a win. *)
Definition win_value {R : Runtime} (r : wordle_result) : option Z :=
  match tally_of (attempts r) with Ok (Win n) => Some n | _ => None end.

(** The sum of a list of ints, and the number of times [n] is in it. *)
Definition sumZ (l : list Z) : Z := foldr Z.add 0 l.

Definition occurrences (n : Z) (l : list Z) : Z :=
  Z.of_nat (length (filter (λ m, m = n) l)).

(** The bucket of a player and a year, when [stats] has one. *)
Definition bucket (stats : stats_map) (pl : str) (yr : Z) : option year_stats :=
  years ← stats !! pl; years !! yr.

(** The wins among tallies. *)
Definition wins_in (ts : list tally) : list Z :=
  omap (λ t, match t with Win n => Some n | Loss => None end) ts.

(** The tallies of results, when each has one. *)
Definition tallies_of {R : Runtime} (rs : list wordle_result) : list tally :=
  omap (λ r, match tally_of (attempts r) with Ok t => Some t | Raise _ => None end) rs.

(** A result of one of the two participants. *)
Definition of_participant (r : wordle_result) : Prop :=
  player r = hugo ∨ player r = sylvain.

Global Instance of_participant_dec r : Decision (of_participant r).
Proof. unfold of_participant. apply _. Defined.

(** The three tallies of a year, added. *)
Definition h2h_total (h : h2h) : Z := hugo_wins h + sylvain_wins h + ties h.

(** The wins among results whose number of attempts is one of 1 to 6. *)
Definition displayed (ws : list Z) : list Z := filter (λ n, 1 ≤ n ≤ 6) ws.

(** Two wins of one player in one year, the first in seven attempts. *)
Definition two_wins : list wordle_result :=
  [sample_result "Hugo Ledoux" 798 "7" 2023 8 26;
   sample_result "Hugo Ledoux" 799 "3" 2023 8 27].

(** All the results of one player. *)
Definition results_by (results : list wordle_result) (pl : str) : list wordle_result :=
  filter (λ r, player r = pl) results.

(** The failures among results. *)
Definition failures (rs : list wordle_result) : list wordle_result :=
  filter (λ r, attempts r = lit "X") rs.

(** Modelled from the spec: the numeric attempts value of a record, 7
    for the failure marker and, for a count written as one digit, the
    number the digit writes. *)
Definition numeric_value {R : Runtime} (a : str) : option Z :=
  match a with
  | [c] =>
      if decide (c = chr "X") then Some 7
      else if isdecimal c then Some (todecimal c)
      else None
  | _ => None
  end.

(** Modelled from the spec: how the numeric attempts values of the last
    results of the two participants for a puzzle compare, [Lt] when the
    first is strictly lower. *)
Definition numeric_duel {R : Runtime} (results : list wordle_result) (yr num : Z)
  : option comparison :=
  match last_attempts results yr num hugo ≫= numeric_value,
        last_attempts results yr num sylvain ≫= numeric_value with
  | Some x, Some y => Some (x ?= y)
  | _, _ => None
  end.

(** The five results and a sixth: 3 attempts against 5 for one puzzle. *)
Definition close_results : list wordle_result :=
  sample_results ++ [sample_result "Sylvain Roy" 800 "5" 2023 8 28].

(** A message with no [div.from_name]. *)
Definition unlabelled (msg : message) : Prop := from_name msg = None.

(** * Properties *)

(** ** The matcher *)

Lemma take_while_Forall {A} (p : A → bool) l : Forall (λ x, p x = true) (take_while p l).
Proof.
  induction l as [|x l IH]; simpl; [constructor|].
  destruct (p x) eqn:E; constructor; done.
Qed.

Lemma take_take_while {A} (p : A → bool) l k :
  (k ≤ length (take_while p l))%nat → take k l = take k (take_while p l).
Proof.
  revert k. induction l as [|x l IH]; intros k; simpl; [done|].
  destruct (p x); simpl.
  - destruct k; simpl; [done|]. intros. f_equal. apply IH. lia.
  - intros. replace k with 0%nat by lia. done.
Qed.

Lemma take_while_length {A} (p : A → bool) l :
  (length (take_while p l) ≤ length l)%nat.
Proof. induction l as [|x l IH]; simpl; [lia|]. destruct (p x); simpl; lia. Qed.


Section Matcher.
Implicit Types (re : regex) (s cur : str) (gs : list str) (p : codepoint → bool).

Lemma re_exec_nil s cur gs : re_exec [] s cur gs = Some (reverse gs, s).
Proof. done. Qed.

Lemma re_exec_open re s cur gs : re_exec (GOpen :: re) s cur gs = re_exec re s [] gs.
Proof. done. Qed.

Lemma re_exec_close re s cur gs :
  re_exec (GClose :: re) s cur gs = re_exec re s cur (reverse cur :: gs).
Proof. done. Qed.

Lemma re_exec_lit c re s cur gs r :
  re_exec (Lit c :: re) s cur gs = Some r →
  ∃ s', s = c :: s' ∧ re_exec re s' (c :: cur) gs = Some r.
Proof.
  simpl. destruct s as [|x s']; [done|].
  destruct (N.eqb_spec x c) as [->|]; [|done]. eauto.
Qed.

Lemma re_exec_cls p re s cur gs r :
  re_exec (Cls p :: re) s cur gs = Some r →
  ∃ x s', s = x :: s' ∧ p x = true ∧ re_exec re s' (x :: cur) gs = Some r.
Proof.
  simpl. destruct s as [|x s']; [done|].
  destruct (p x) eqn:E; [|done]. eauto.
Qed.

Lemma re_exec_plus p re s cur gs r :
  re_exec (Plus p :: re) s cur gs = Some r →
  ∃ k, (1 ≤ k ≤ length (take_while p s))%nat
       ∧ re_exec re (drop k s) (reverse (take k s) ++ cur) gs = Some r.
Proof.
  cbn [re_exec]. generalize (length (take_while p s)) as n.
  induction n as [|n IH]; [done|].
  destruct (re_exec re (drop (S n) s) _ gs) eqn:E.
  - intros [= <-]. exists (S n). split; [lia|done].
  - intros H. destruct (IH H) as (k & ? & ?). exists k. split; [lia|done].
Qed.


Lemma re_exec_lits l re s cur gs r :
  re_exec ((Lit <$> l) ++ re) s cur gs = Some r →
  ∃ s', s = l ++ s' ∧ re_exec re s' (reverse l ++ cur) gs = Some r.
Proof.
  revert s cur. induction l as [|c l IH]; intros s cur H.
  - by exists s.
  - apply re_exec_lit in H as (s1 & -> & H).
    apply IH in H as (s' & -> & H). exists s'. split; [done|].
    by rewrite reverse_cons, <-(assoc_L (++)).
Qed.

End Matcher.

(** ** The character classes *)

Section ClassFacts.
Context {R : Runtime}.

Lemma todecimal_range c : isdecimal c = true → 0 ≤ todecimal c ≤ 9.
Proof.
  unfold isdecimal, todecimal, ascii_isdecimal, in_range.
  destruct (c <? 128)%N.
  - intros [H1 H2]%andb_true_iff. apply N.leb_le in H1, H2. lia.
  - apply uni_todecimal_range.
Qed.

Lemma isdecimal_not_int_space c : isdecimal c = true → int_isspace c = false.
Proof.
  unfold int_isspace, isspace, isdecimal, ascii_isdecimal, ascii_isspace, in_range.
  destruct (N.ltb_spec c 127), (N.ltb_spec c 128); try lia.
  - intros [H1 H2]%andb_true_iff. apply N.leb_le in H1, H2.
    apply orb_false_iff. split; [apply andb_false_iff; right; apply N.leb_gt|apply N.eqb_neq]; lia.
  - intros [H1 H2]%andb_true_iff. apply N.leb_le in H1, H2. lia.
  - apply uni_decimal_not_space.
Qed.

End ClassFacts.

(** ** The mention pattern *)

Section Mention.
Context {R : Runtime}.

(** A match of the mention pattern has two groups: a non-empty run of
    digits and commas, and one character that is [X] or a digit. *)
Lemma wordle_exec_inv s gs rest :
  re_exec wordle_re s [] [] = Some (gs, rest) →
  ∃ num tok,
    s = lit "Wordle " ++ num ++ chr " " :: tok :: lit "/6" ++ rest
    ∧ gs = [num; [tok]] ∧ num ≠ []
    ∧ Forall (λ c, digit_or_comma c = true) num
    ∧ digit_or_X tok = true.
Proof.
  unfold wordle_re. intros H.
  apply re_exec_lits in H as (s1 & -> & H). rewrite re_exec_open in H.
  apply re_exec_plus in H as (k & Hk & H). rewrite re_exec_close in H.
  apply re_exec_lit in H as (s2 & Hs2 & H). rewrite re_exec_open in H.
  apply re_exec_cls in H as (tok & s3 & -> & Htok & H). rewrite re_exec_close in H.
  apply re_exec_lit in H as (s4 & -> & H).
  apply re_exec_lit in H as (s5 & -> & H).
  rewrite re_exec_nil in H. injection H as <- <-.
  exists (take k s1), tok. split_and!.
  - change (lit "/6" ++ s5) with (chr "/" :: chr "6" :: s5).
    by rewrite <-Hs2, take_drop.
  - by rewrite app_nil_r, reverse_involutive.
  - intros E. apply (f_equal length) in E. rewrite length_take in E.
    pose proof (take_while_length digit_or_comma s1). simpl in E. lia.
  - rewrite (take_take_while digit_or_comma) by lia.
    apply Forall_take, take_while_Forall.
  - exact Htok.
Qed.

Lemma wordle_search_inv s gs :
  re_search wordle_re s = Some gs →
  ∃ num tok, gs = [num; [tok]] ∧ num ≠ []
    ∧ Forall (λ c, digit_or_comma c = true) num ∧ digit_or_X tok = true.
Proof.
  induction s as [|x s IH]; cbn [re_search].
  - destruct (re_exec wordle_re [] [] []) as [[gs' rest]|] eqn:E; [|done].
    intros [= <-]. apply wordle_exec_inv in E as (num & tok & _ & ? & ? & ? & ?). eauto 10.
  - destruct (re_exec wordle_re (x :: s) [] []) as [[gs' rest]|] eqn:E; [|done].
    intros [= <-]. apply wordle_exec_inv in E as (num & tok & _ & ? & ? & ? & ?). eauto 10.
Qed.

End Mention.

(** ** The error monad *)

Lemma bind_Ok {A B} (m : result A) (f : A → result B) b :
  m ≫= f = Ok b → ∃ a, m = Ok a ∧ f a = Ok b.
Proof. destruct m as [a|e]; [|done]. intros. by exists a. Qed.

(** ** [int] on strings of digits *)

Section IntFacts.
Context {R : Runtime}.

Lemma drop_while_id {A} (p : A → bool) l :
  Forall (λ x, p x = false) l → drop_while p l = l.
Proof. destruct 1 as [|x l Hx]; simpl; [done|]. by rewrite Hx. Qed.

Lemma strip_with_id p s : Forall (λ c, p c = false) s → strip_with p s = s.
Proof.
  intros H. unfold strip_with. rewrite (drop_while_id p s H).
  rewrite drop_while_id by by apply Forall_reverse.
  apply reverse_involutive.
Qed.

Lemma int_digits_decimal s acc n b :
  Forall (λ c, isdecimal c = true) s → s ≠ [] ∨ b = true →
  int_digits s acc n b
  = Some (fold_left (λ acc c, 10 * acc + todecimal c) s acc, (n + length s)%nat).
Proof.
  intros H. revert acc n b. induction H as [|c s Hc _ IH]; intros acc n b Hb; simpl.
  - destruct Hb as [? | ->]; [done|]. do 2 f_equal. lia.
  - destruct (N.eqb_spec c (chr "_")) as [->|_]; [done|].
    rewrite Hc, IH by by right. do 2 f_equal. lia.
Qed.

(** A sign is not a digit. *)
Lemma decimal_not_sign c :
  isdecimal c = true → (c =? chr "+")%N = false ∧ (c =? chr "-")%N = false.
Proof.
  intros H. split; apply N.eqb_neq; intros ->; done.
Qed.

(** [int] of a string of digits: the empty string and a string longer
    than the limit raise, any other gives its decimal value. *)
Lemma py_int_decimal s :
  Forall (λ c, isdecimal c = true) s →
  py_int s = if decide (s = []) then Raise ValueError
             else if exceeds_limit (length s) then Raise ValueError
             else Ok (decimal_value s).
Proof.
  intros H. unfold py_int.
  rewrite strip_with_id by (eapply Forall_impl; [done|apply isdecimal_not_int_space]).
  destruct H as [|c s Hc Hs]; [done|].
  destruct (decimal_not_sign c Hc) as [-> ->].
  rewrite int_digits_decimal by (by constructor || by left).
  rewrite decide_False by done. done.
Qed.

Lemma py_int_decimal_nonneg s v :
  Forall (λ c, isdecimal c = true) s → py_int s = Ok v → 0 ≤ v.
Proof.
  intros H. rewrite py_int_decimal by done.
  assert (∀ acc, 0 ≤ acc → 0 ≤ fold_left (λ acc c, 10 * acc + todecimal c) s acc) as G.
  { induction H as [|c s Hc _ IH]; intros acc Hacc; simpl; [done|].
    apply IH. pose proof (todecimal_range c Hc). lia. }
  destruct (decide _); [done|]. destruct (exceeds_limit _); [done|].
  intros [= <-]. by apply G.
Qed.

(** [int] raises nothing but [ValueError]. *)
Lemma py_int_raise s e : py_int s = Raise e → e = ValueError.
Proof.
  unfold py_int. destruct (match strip_with int_isspace s with [] => _ | _ => _ end) as [neg s'].
  destruct (int_digits s' 0 0 false) as [[v n]|]; [|congruence].
  destruct (exceeds_limit n); congruence.
Qed.

Lemma remove_commas_decimal s :
  Forall (λ c, digit_or_comma c = true) s →
  Forall (λ c, isdecimal c = true) (remove_commas s).
Proof.
  unfold remove_commas. induction 1 as [|c s Hc _ IH]; [constructor|].
  rewrite filter_cons. case_decide as E; [|done].
  constructor; [|done]. unfold digit_or_comma in Hc.
  apply orb_true_iff in Hc as [|Hc%N.eqb_eq]; done.
Qed.

End IntFacts.

(** ** What a message produces *)

Section Extraction.
Context {R : Runtime}.

Lemma py_int_short s :
  Forall (λ c, isdecimal c = true) s → s ≠ [] → (length s ≤ 640)%nat →
  py_int s = Ok (decimal_value s).
Proof.
  intros H Hne Hlen. rewrite py_int_decimal, decide_False by done.
  unfold exceeds_limit. by rewrite (proj2 (Nat.ltb_ge _ _) Hlen).
Qed.

Lemma new_datetime_Ok y m d dt :
  new_datetime y m d = Ok dt →
  valid_date y m d = true ∧ dt = {| dt_year := y; dt_month := m; dt_day := d |}.
Proof. unfold new_datetime. destruct (valid_date y m d); [|done]. by intros [= <-]. Qed.

(** What is known of a record that a message produced. *)
Lemma extract_Some current_player msg r :
  extract current_player msg = Ok (Some r) →
  current_player = Some (player r) ∧ player r ≠ []
  ∧ attempts_token (attempts r)
  ∧ 0 ≤ puzzle_num r
  ∧ valid_date (dt_year (date r)) (dt_month (date r)) (dt_day (date r)) = true
  ∧ year r = dt_year (date r).
Proof.
  unfold extract. destruct (text msg) as [txt|]; [|done].
  destruct (re_search wordle_re txt) as [gs|] eqn:Hs; [|done].
  destruct current_player as [[|c0 p]|]; [done| |done].
  apply wordle_search_inv in Hs as (num & tok & -> & Hne & Hnum & Htok).
  intros (n & Hn & H)%bind_Ok.
  destruct (details msg) as [[[|t0 title]|]|]; [done| |done|done].
  destruct (re_match date_re (t0 :: title)) as [dm|]; [|done].
  apply bind_Ok in H as (y & _ & H). apply bind_Ok in H as (m & _ & H).
  apply bind_Ok in H as (d & _ & H). apply bind_Ok in H as (dt & Hdt & H).
  injection H as <-. simpl.
  apply new_datetime_Ok in Hdt as [Hv ->]. simpl. split_and!; try done.
  - exists tok. split; [done|]. unfold digit_or_X in Htok.
    apply orb_true_iff in Htok as [Htok%N.eqb_eq|]; auto.
  - eapply py_int_decimal_nonneg; [|exact Hn].
    unfold group. simpl. by apply remove_commas_decimal.
Qed.

(** A property of every record of [results] that every produced record
    has holds of every record of the final list. *)
Lemma messages_loop_Forall (P : wordle_result → Prop) messages current_player results out :
  (∀ cp msg r, extract cp msg = Ok (Some r) → P r) →
  messages_loop messages current_player results = Ok out →
  Forall P results → Forall P out.
Proof.
  intros HP. revert current_player results.
  induction messages as [|msg messages IH]; intros cp results; simpl.
  - by intros [= <-].
  - intros (o & Ho & H)%bind_Ok Hres. eapply IH; [exact H|].
    apply Forall_app. split; [done|].
    destruct o as [r|]; simpl; [|done]. repeat constructor. by eapply HP.
Qed.

Lemma files_loop_Forall (P : wordle_result → Prop) files results out :
  (∀ cp msg r, extract cp msg = Ok (Some r) → P r) →
  files_loop files results = Ok out →
  Forall P results → Forall P out.
Proof.
  intros HP. revert results.
  induction files as [|messages files IH]; intros results; simpl.
  - by intros [= <-].
  - intros (res' & Hm & H)%bind_Ok Hres. eapply IH; [exact H|].
    by eapply messages_loop_Forall.
Qed.

Lemma parse_html_files_Forall (P : wordle_result → Prop) files out :
  (∀ cp msg r, extract cp msg = Ok (Some r) → P r) →
  parse_html_files files = Ok out → Forall P out.
Proof. intros HP H. by eapply files_loop_Forall. Qed.

End Extraction.

(** ** C1: the values of [attempts] *)




(** ** C7: the other fields of a record *)

(** C7, as stated, fails: "Wordle 0 3/6" matches the pattern and yields
    a record with [puzzle_num] 0. *)
Lemma C7_puzzle_number_zero :
  (∀ R : Runtime,
     parse_html_files puzzle_zero
     = Ok [sample_result "Hugo Ledoux" 0 "3" 2023 8 26])
  ∧ ¬ 1 ≤ puzzle_num (sample_result "Hugo Ledoux" 0 "3" 2023 8 26).
Proof. split; [intros R; vm_compute; reflexivity|]. simpl. lia. Qed.

(** C7, amended: in every record that [parse_html_files] returns, the
    puzzle number is at least 0, the player name is not empty, the date
    is a date of the calendar (year 1 to 9999, month 1 to 12, a day of
    that month), and [year] is the year of the date. *)
Theorem C7_record_fields {R : Runtime} files results :
  parse_html_files files = Ok results →
  Forall (λ r, 0 ≤ puzzle_num r ∧ player r ≠ []
               ∧ valid_date (dt_year (date r)) (dt_month (date r)) (dt_day (date r)) = true
               ∧ year r = dt_year (date r)) results.
Proof.
  apply parse_html_files_Forall. intros cp msg r H.
  by apply extract_Some in H as (_ & ? & _ & ? & ? & ?).
Qed.

Lemma C7_record_fields_witness :
  @parse_html_files ascii_runtime puzzle_zero
  = Ok [sample_result "Hugo Ledoux" 0 "3" 2023 8 26]
  ∧ Forall (λ r, 0 ≤ puzzle_num r ∧ player r ≠ []
                 ∧ valid_date (dt_year (date r)) (dt_month (date r)) (dt_day (date r)) = true
                 ∧ year r = dt_year (date r))
      [sample_result "Hugo Ledoux" 0 "3" 2023 8 26].
Proof.
  split; [vm_compute; reflexivity|].
  apply (@C7_record_fields ascii_runtime puzzle_zero).
  vm_compute. reflexivity.
Defined.

(** ** C10: a puzzle number made of commas *)

(** C10: the text "Wordle , 3/6" matches the mention pattern with the
    groups "," and "3"; without its commas the first group is empty and
    [int] of the empty string raises [ValueError].  With a known author
    the exception leaves [parse_html_files]; with no author the message
    is skipped before the conversion. *)
Theorem C10_comma_only_raises {R : Runtime} :
  re_search wordle_re (lit "Wordle , 3/6") = Some [lit ","; lit "3"]
  ∧ remove_commas (lit ",") = []
  ∧ py_int [] = Raise ValueError
  ∧ parse_html_files [[comma_only]] = Raise ValueError
  ∧ parse_html_files
      [[{| from_name := None; text := text comma_only; details := details comma_only |}]]
    = Ok [].
Proof. split_and!; vm_compute; reflexivity. Qed.

(** ** C9: the current player *)

Section CurrentPlayer.
Context {R : Runtime}.

(** The loop over a concatenation: the second part starts from the
    player and the results the first part leaves. *)
Lemma messages_loop_app ms1 ms2 current_player results :
  messages_loop (ms1 ++ ms2) current_player results
  = results' ← messages_loop ms1 current_player results;
    messages_loop ms2 (fold_left next_player ms1 current_player) results'.
Proof.
  revert current_player results.
  induction ms1 as [|msg ms1 IH]; intros cp results; simpl; [done|].
  destruct (extract (next_player cp msg) msg) as [o|e]; simpl; [|done].
  apply IH.
Qed.

Lemma files_loop_app fs1 fs2 results :
  files_loop (fs1 ++ fs2) results
  = results' ← files_loop fs1 results; files_loop fs2 results'.
Proof.
  revert results. induction fs1 as [|ms fs1 IH]; intros results; simpl; [done|].
  destruct (messages_loop ms None results) as [results'|e]; simpl; [|done].
  apply IH.
Qed.

Lemma next_player_unlabelled ms current_player :
  Forall unlabelled ms → fold_left next_player ms current_player = current_player.
Proof.
  induction 1 as [|msg ms Hm _ IH]; simpl; [done|].
  unfold next_player at 2. by rewrite Hm.
Qed.

(** A message read with no player, or with an empty name, adds nothing
    and raises nothing, whatever its text. *)
Lemma extract_no_player msg : extract None msg = Ok None ∧ extract (Some []) msg = Ok None.
Proof.
  unfold extract. destruct (text msg) as [txt|]; [|done].
  by destruct (re_search wordle_re txt).
Qed.

Lemma messages_loop_unlabelled ms rest results :
  Forall unlabelled ms →
  messages_loop (ms ++ rest) None results = messages_loop rest None results.
Proof.
  induction 1 as [|msg ms Hm _ IH]; simpl; [done|].
  unfold next_player. rewrite Hm.
  rewrite (proj1 (extract_no_player msg)). simpl. by rewrite app_nil_r.
Qed.

End CurrentPlayer.

(** C9: (1) a message with no label, after a labelled message [a] of
    the same file and unlabelled ones, is read with the name of [a],
    stripped and without its "via @..." part; (2) the unlabelled messages
    that open a file are read with no player, whatever the files before
    held, and add nothing; (3) a message read with no player, or with an
    empty name, adds no record and raises nothing. *)
Theorem C9_sticky_author {R : Runtime} :
  (∀ before a name between b after current_player results,
     from_name a = Some name → Forall unlabelled (between ++ [b]) →
     messages_loop (before ++ a :: between ++ b :: after) current_player results
     = results' ← messages_loop (before ++ a :: between) current_player results;
       r ← extract (Some (re_remove via_re (strip name))) b;
       messages_loop after (Some (re_remove via_re (strip name)))
         (results' ++ option_list r))
  ∧ (∀ files opening rest,
       Forall unlabelled opening →
       parse_html_files (files ++ [opening ++ rest]) = parse_html_files (files ++ [rest]))
  ∧ (∀ msg, extract None msg = Ok None ∧ extract (Some []) msg = Ok None).
Proof.
  split_and!.
  - intros before a name between b after cp results Ha [Hbetween Hb]%Forall_app.
    rewrite Forall_singleton in Hb. unfold unlabelled in Hb.
    replace (before ++ a :: between ++ b :: after)
      with ((before ++ a :: between) ++ b :: after) by by rewrite <-app_assoc.
    rewrite messages_loop_app.
    assert (fold_left next_player (before ++ a :: between) cp
            = Some (re_remove via_re (strip name))) as ->.
    { rewrite fold_left_app. simpl. rewrite next_player_unlabelled by done.
      unfold next_player. by rewrite Ha. }
    destruct (messages_loop (before ++ a :: between) cp results) as [results'|e]; [|done].
    simpl. unfold next_player. by rewrite Hb.
  - intros files opening rest Hop. unfold parse_html_files.
    rewrite !files_loop_app. destruct (files_loop files []) as [results|e]; [|done].
    simpl. by rewrite messages_loop_unlabelled.
  - apply extract_no_player.
Qed.

(** A labelled message with no text, then an unlabelled one with a
    mention: the record carries the name of the first. *)
Lemma C9_sticky_author_witness :
  @parse_html_files ascii_runtime
    [[{| from_name := Some (lit " Hugo Ledoux via @WordleBot "); text := None;
         details := None |};
      {| from_name := None; text := text comma_only; details := details comma_only |}];
     [{| from_name := None; text := Some (lit "Wordle 799 4/6");
         details := details comma_only |}]]
  = Raise ValueError
  ∧ @parse_html_files ascii_runtime
      [[{| from_name := Some (lit " Hugo Ledoux via @WordleBot "); text := None;
           details := None |};
        {| from_name := None; text := Some (lit "Wordle 798 3/6");
           details := details comma_only |}];
       [{| from_name := None; text := Some (lit "Wordle 799 4/6");
           details := details comma_only |}]]
    = Ok [sample_result "Hugo Ledoux" 798 "3" 2023 8 26]
  ∧ @extract ascii_runtime None comma_only = Ok None.
Proof.
  split_and!; [vm_compute; reflexivity..|].
  apply (proj1 (proj2 (proj2 (@C9_sticky_author ascii_runtime)) comma_only)).
Defined.

(** ** C8: grouped and ungrouped puzzle numbers *)


Section Prefix.
Implicit Types (re : regex) (s cur : str) (gs : list str).



End Prefix.



Section Grouping.
Context {R : Runtime}.







End Grouping.



(** ** C4 and C5: the statistics of a player and a year *)

Lemma dist_sum_empty : dist_sum ∅ = 0.
Proof. unfold dist_sum. by rewrite map_fold_empty. Qed.

Lemma dist_sum_insert_fresh (d : gmap Z Z) n v :
  d !! n = None → dist_sum (<[n := v]> d) = v + dist_sum d.
Proof.
  intros H. unfold dist_sum. rewrite map_fold_insert_L; [done| |done].
  intros. lia.
Qed.

Lemma dist_sum_insert (d : gmap Z Z) n v :
  dist_sum (<[n := v]> d) = v + dist_sum d - default 0 (d !! n).
Proof.
  destruct (d !! n) as [w|] eqn:E; simpl.
  - rewrite <-(insert_delete_id d n w E) at 2.
    rewrite <-insert_delete_eq, !dist_sum_insert_fresh by apply lookup_delete_eq. lia.
  - rewrite dist_sum_insert_fresh by done. lia.
Qed.

Lemma count_balanced t ys : balanced ys → balanced (count t ys).
Proof.
  intros [H1 H2]. unfold balanced. destruct t as [|n]; simpl; [lia|].
  rewrite dist_sum_insert. lia.
Qed.

Lemma count_bounded t ys : one_digit t → bounded ys → bounded (count t ys).
Proof. unfold bounded. destruct t as [|n]; simpl; lia. Qed.

Lemma count_comm t1 t2 ys : count t1 (count t2 ys) = count t2 (count t1 ys).
Proof.
  destruct t1 as [|n1], t2 as [|n2]; simpl; try (f_equal; lia).
  f_equal; try lia.
  destruct (decide (n1 = n2)) as [->|Hne].
  - by rewrite !lookup_insert_eq, !insert_insert_eq.
  - rewrite !lookup_insert_ne by done. by apply insert_insert_ne.
Qed.

(** The bucket of [player] and [year] replaced by [f] of it. *)
Lemma lookup_set_year_stats (stats : stats_map) player year ys p :
  set_year_stats stats player year ys !! p
  = if decide (player = p) then Some (<[year := ys]> (default ∅ (stats !! player)))
    else stats !! p.
Proof. unfold set_year_stats. apply lookup_insert. Qed.

Lemma get_set_year_stats (stats : stats_map) player year ys p y :
  get_year_stats (set_year_stats stats player year ys) p y
  = if decide (player = p ∧ year = y) then ys else get_year_stats stats p y.
Proof.
  unfold get_year_stats. rewrite lookup_set_year_stats.
  destruct (decide (player = p)) as [->|]; simpl.
  - rewrite lookup_insert. destruct (decide (year = y)) as [->|].
    + by rewrite decide_True.
    + rewrite decide_False; [done|]. by intros [_ ?].
  - rewrite decide_False; [done|]. by intros [? _].
Qed.

Lemma set_year_stats_comm (stats : stats_map) p1 y1 p2 y2 t1 t2 :
  let s1 := set_year_stats stats p1 y1 (count t1 (get_year_stats stats p1 y1)) in
  let s2 := set_year_stats stats p2 y2 (count t2 (get_year_stats stats p2 y2)) in
  set_year_stats s1 p2 y2 (count t2 (get_year_stats s1 p2 y2))
  = set_year_stats s2 p1 y1 (count t1 (get_year_stats s2 p1 y1)).
Proof.
  intros s1 s2. apply map_eq. intros p.
  rewrite !lookup_set_year_stats. unfold s1, s2.
  rewrite !get_set_year_stats, !lookup_set_year_stats.
  destruct (decide (p1 = p2)) as [->|Hp].
  - rewrite (decide_True (P := p2 = p2)) by done. simpl.
    destruct (decide (p2 = p)) as [->|]; [|done]. f_equal.
    destruct (decide (y1 = y2)) as [->|Hy].
    + rewrite !decide_True by done. rewrite !insert_insert_eq. f_equal. apply count_comm.
    + rewrite !decide_False by (by intros [_ ?]). by apply insert_insert_ne.
  - repeat case_decide; destruct_and?; simplify_eq; done.
Qed.

Section StatisticsFacts.
Context {R : Runtime}.

Lemma tally_of_raise a e : tally_of a = Raise e → e = ValueError.
Proof.
  unfold tally_of. case_decide; [done|].
  destruct (py_int a) eqn:E; [done|]. intros [= <-]. by eapply py_int_raise.
Qed.

(** The body of the loop, by what the result counts as. *)
Lemma add_result_tally (stats : stats_map) (r : wordle_result) :
  add_result stats r
  = t ← tally_of (attempts r);
    Ok (set_year_stats stats (player r) (year r)
          (count t (get_year_stats stats (player r) (year r)))).
Proof.
  unfold add_result, tally_of. case_decide; [done|].
  by destruct (py_int (attempts r)).
Qed.

Lemma add_result_comm {A : Type} (stats : stats_map) (r1 r2 : wordle_result)
    (k : stats_map → result A) :
  (s ← add_result stats r1; s' ← add_result s r2; k s')
  = (s ← add_result stats r2; s' ← add_result s r1; k s').
Proof.
  destruct (tally_of (attempts r1)) as [t1|e1] eqn:E1,
           (tally_of (attempts r2)) as [t2|e2] eqn:E2;
    rewrite ?add_result_tally, ?E1, ?E2; simpl;
    rewrite ?add_result_tally, ?E1, ?E2; simpl; try done.
  - f_equal. apply set_year_stats_comm.
  - apply tally_of_raise in E1, E2. by subst.
Qed.

Lemma statistics_loop_permutation results1 results2 :
  results1 ≡ₚ results2 →
  ∀ stats, statistics_loop results1 stats = statistics_loop results2 stats.
Proof.
  induction 1 as [|r l1 l2 _ IH|r1 r2 l|l1 l2 l3 _ IH1 _ IH2]; intros stats.
  - done.
  - simpl. destruct (add_result stats r); simpl; [apply IH|done].
  - apply (add_result_comm stats r2 r1 (statistics_loop l)).
  - by rewrite IH1.
Qed.

(** A property of the empty bucket that [count] keeps, for the tallies
    of the results, holds of every bucket at the end of the loop. *)
Lemma get_year_stats_all (P : year_stats → Prop) stats player year :
  P new_year_stats → all_buckets P stats → P (get_year_stats stats player year).
Proof.
  intros Hnew H. unfold get_year_stats.
  destruct (stats !! player) as [years|] eqn:E1; simpl.
  - destruct (years !! year) as [ys|] eqn:E2; simpl; [by eapply H|done].
  - by rewrite lookup_empty.
Qed.

Lemma add_result_all (P : year_stats → Prop) (T : tally → Prop) stats r stats' :
  P new_year_stats → (∀ t ys, T t → P ys → P (count t ys)) →
  (∀ t, tally_of (attempts r) = Ok t → T t) →
  all_buckets P stats → add_result stats r = Ok stats' → all_buckets P stats'.
Proof.
  intros Hnew Hcount HT Hinv. rewrite add_result_tally.
  intros (t & Ht & [= <-])%bind_Ok.
  intros p years y ys. rewrite lookup_set_year_stats.
  destruct (decide (player r = p)) as [<-|].
  - intros [= <-]. rewrite lookup_insert.
    destruct (decide (year r = y)) as [<-|].
    + intros [= <-]. apply Hcount; [by apply HT|by apply get_year_stats_all].
    + destruct (stats !! player r) as [years|] eqn:E; simpl.
      * intros ?. by eapply Hinv.
      * by rewrite lookup_empty.
  - intros ??. by eapply Hinv.
Qed.

Lemma statistics_loop_all (P : year_stats → Prop) (T : tally → Prop)
    results stats stats' :
  P new_year_stats → (∀ t ys, T t → P ys → P (count t ys)) →
  Forall (λ r, ∀ t, tally_of (attempts r) = Ok t → T t) results →
  all_buckets P stats → statistics_loop results stats = Ok stats' →
  all_buckets P stats'.
Proof.
  intros Hnew Hcount HT. revert stats.
  induction HT as [|r results Hr _ IH]; intros stats Hinv; simpl.
  - by intros [= <-].
  - intros (s & Hs & H)%bind_Ok. eapply IH; [|done]. by eapply add_result_all.
Qed.

End StatisticsFacts.

(** The statistics of records whose [attempts] is [X] or one digit, as
    [parse_html_files] returns them, raise nothing. *)
Lemma calculate_statistics_of_tokens {R : Runtime} results :
  Forall (λ r, attempts_token (attempts r)) results →
  ∃ stats, calculate_statistics results = Ok stats.
Proof.
  unfold calculate_statistics. intros H. generalize (∅ : stats_map).
  induction H as [|r results (c & Hc & Hcase) _ IH]; intros stats; simpl; [by eexists|].
  rewrite add_result_tally. unfold tally_of. rewrite Hc.
  case_decide; simpl; [apply IH|].
  destruct Hcase as [->|Hdec]; [done|].
  rewrite py_int_short by (repeat constructor; simpl; done || lia). simpl. apply IH.
Qed.

(** C4: in what [calculate_statistics] returns, every bucket of a player
    and a year has [wins + losses = total] and the values of its
    [attempts_dist] sum to [wins]. *)
Theorem C4_bucket_invariant {R : Runtime} results stats player years yr ys :
  calculate_statistics results = Ok stats →
  stats !! player = Some years → years !! yr = Some ys →
  wins ys + losses ys = total ys ∧ dist_sum (attempts_dist ys) = wins ys.
Proof.
  intros H Hplayer Hyr.
  assert (all_buckets balanced stats) as Hall; [|by eapply Hall].
  apply (statistics_loop_all balanced (λ _, True) results ∅ stats).
  - split; [done|apply dist_sum_empty].
  - intros t ys' _. apply count_balanced.
  - by apply Forall_true.
  - intros p y' yr' ys'. by rewrite lookup_empty.
  - exact H.
Qed.

Lemma C4_bucket_invariant_witness :
  ∃ stats years ys,
    @calculate_statistics ascii_runtime sample_results = Ok stats
    ∧ stats !! hugo = Some years ∧ years !! 2023 = Some ys
    ∧ total ys = 3 ∧ wins ys = 2
    ∧ (wins ys + losses ys = total ys ∧ dist_sum (attempts_dist ys) = wins ys).
Proof.
  eexists _, _, _.
  split; [vm_compute; reflexivity|].
  split; [vm_compute; reflexivity|].
  split; [vm_compute; reflexivity|].
  split; [reflexivity|]. split; [reflexivity|].
  eapply (@C4_bucket_invariant ascii_runtime sample_results _ hugo _ 2023);
    vm_compute; reflexivity.
Defined.

(** C5: [calculate_statistics] gives the same result, the same map of
    buckets or the same exception, on a list of records and on any
    permutation of it. *)
Theorem C5_order_independent {R : Runtime} results1 results2 :
  results1 ≡ₚ results2 →
  calculate_statistics results1 = calculate_statistics results2.
Proof. intros H. by apply statistics_loop_permutation. Qed.

Lemma C5_order_independent_witness :
  sample_results ≡ₚ reverse sample_results
  ∧ @calculate_statistics ascii_runtime sample_results
    = @calculate_statistics ascii_runtime (reverse sample_results).
Proof.
  assert (sample_results ≡ₚ reverse sample_results) as H
    by (symmetry; apply reverse_Permutation).
  split; [exact H|]. exact (@C5_order_independent ascii_runtime _ _ H).
Defined.

(** ** C3 and C6: the head-to-head tallies *)

Lemma compare_players_versus (yr : Z) (players : gmap str Z) (h2h_stats : gmap Z h2h) :
  compare_players yr players h2h_stats
  = match versus players with
    | Some c => <[yr := score c (year_h2h h2h_stats yr)]> h2h_stats
    | None => h2h_stats
    end.
Proof.
  unfold compare_players, versus, year_h2h.
  destruct (players !! hugo) as [a|]; [|done].
  destruct (players !! sylvain) as [b|]; [|done].
  destruct (Z.compare_spec a b), (Z.ltb_spec a b), (Z.ltb_spec b a); done || lia.
Qed.

Lemma size_filter_insert {A} (P : Z * A → Prop) `{!∀ x, Decision (P x)}
    (m : gmap Z A) i x :
  m !! i = None →
  size (filter P (<[i:=x]> m))
  = if decide (P (i, x)) then S (size (filter P m)) else size (filter P m).
Proof.
  intros Hi. case_decide.
  - rewrite map_filter_insert_True, map_size_insert_None; [done| |done].
    apply map_lookup_filter_None. by left.
  - by rewrite map_filter_insert_False, delete_id.
Qed.

Lemma tallied_insert (c : comparison) (m : gmap Z (gmap str Z)) (i : Z) (x : gmap str Z) :
  m !! i = None →
  tallied c (<[i:=x]> m) = if decide (versus x = Some c) then S (tallied c m) else tallied c m.
Proof. intros. unfold tallied. by rewrite size_filter_insert. Qed.

Lemma compared_insert (m : gmap Z (gmap str Z)) (i : Z) (x : gmap str Z) :
  m !! i = None →
  compared (<[i:=x]> m) = if decide (is_Some (versus x)) then S (compared m) else compared m.
Proof. intros. unfold compared. by rewrite size_filter_insert. Qed.

Lemma year_h2h_insert (h2h_stats : gmap Z h2h) (yr : Z) (h : h2h) :
  year_h2h (<[yr := h]> h2h_stats) yr = h.
Proof. unfold year_h2h. by rewrite lookup_insert_eq. Qed.

Lemma tallies_empty (h2h_stats : gmap Z h2h) (yr : Z) : h2h_stats !! yr = None → tallies h2h_stats yr ∅.
Proof.
  intros H. unfold tallies, year_h2h, tallied, compared.
  rewrite H, !map_filter_empty, map_size_empty. done.
Qed.

(** The loop over the puzzles of a year leaves the other years as they
    were and, from no entry for the year, ends with its tallies. *)
Lemma compare_year_tallies (yr : Z) (year_puzzles : gmap Z (gmap str Z))
    (h2h_stats : gmap Z h2h) :
  h2h_stats !! yr = None →
  (∀ yr', yr' ≠ yr → compare_year yr year_puzzles h2h_stats !! yr' = h2h_stats !! yr')
  ∧ tallies (compare_year yr year_puzzles h2h_stats) yr year_puzzles.
Proof.
  intros H0. unfold compare_year.
  apply (map_fold_weak_ind
    (λ acc m, (∀ yr', yr' ≠ yr → acc !! yr' = h2h_stats !! yr') ∧ tallies acc yr m)).
  - split; [done|]. by apply tallies_empty.
  - intros num players m acc Hnum [Hother Ht].
    rewrite compare_players_versus. unfold tallies in *.
    rewrite !tallied_insert, compared_insert by done.
    destruct Ht as (H1 & H2 & H3 & H4 & H5).
    destruct (versus players) as [c|] eqn:Ev.
    + split; [intros yr' Hne; rewrite lookup_insert_ne by done; by apply Hother|].
      rewrite !year_h2h_insert, lookup_insert_eq.
      rewrite (decide_True (P := is_Some (Some c))) by by eexists.
      destruct c; simpl; repeat case_decide; simplify_eq;
        split_and!; try lia; done.
    + split; [done|].
      rewrite !decide_False by (done || by intros [? ?]). done.
Qed.

(** The loop over the years ends with the tallies of every year. *)
Lemma compare_all_tallies (puzzles : puzzles_map) (yr : Z) :
  tallies (compare_all puzzles) yr (default ∅ (puzzles !! yr)).
Proof.
  unfold compare_all. revert yr.
  apply (map_fold_weak_ind (λ acc (m : puzzles_map),
           ∀ yr, tallies acc yr (default ∅ (m !! yr)))).
  - intros yr. rewrite lookup_empty. by apply tallies_empty.
  - intros y year_puzzles m acc Hy IH yr.
    assert (acc !! y = None) as Hacc.
    { specialize (IH y). rewrite Hy in IH. destruct IH as (_ & _ & _ & _ & IH).
      apply IH. simpl. unfold compared. by rewrite map_filter_empty, map_size_empty. }
    destruct (compare_year_tallies y year_puzzles acc Hacc) as [Hother Ht].
    destruct (decide (yr = y)) as [->|Hne].
    + by rewrite lookup_insert_eq.
    + rewrite lookup_insert_ne by done. specialize (IH yr).
      unfold tallies, year_h2h in *. by rewrite (Hother yr Hne).
Qed.

Section Puzzles.
Context {R : Runtime}.

Lemma entry_empty (yr num : Z) (pl : str) : entry ∅ yr num pl = None.
Proof. unfold entry. by rewrite lookup_empty. Qed.

(** The entries of [puzzles] after one more result. *)
Lemma group_result_entry (puzzles puzzles' : puzzles_map) (r : wordle_result) :
  group_result puzzles r = Ok puzzles' →
  ∃ v, attempts_val (attempts r) = Ok v
       ∧ ∀ yr num pl,
           entry puzzles' yr num pl
           = if decide (same_key yr num pl r) then Some v else entry puzzles yr num pl.
Proof.
  unfold group_result. intros (v & Hv & [= <-])%bind_Ok. exists v. split; [done|].
  intros yr num pl. unfold entry, same_key.
  destruct (decide (year r = yr)) as [<-|Hy].
  - rewrite lookup_insert_eq. simpl.
    destruct (decide (puzzle_num r = num)) as [<-|Hn].
    + rewrite lookup_insert_eq. simpl.
      destruct (decide (player r = pl)) as [<-|Hp].
      * rewrite lookup_insert_eq. by rewrite decide_True.
      * rewrite lookup_insert_ne by done. rewrite decide_False by (by intros (_ & _ & ?)).
        destruct (puzzles !! year r) as [yp|]; simpl; [|done].
        by destruct (yp !! puzzle_num r).
    + rewrite lookup_insert_ne by done. rewrite decide_False by (by intros (_ & ? & _)).
      by destruct (puzzles !! year r).
  - rewrite lookup_insert_ne by done. by rewrite decide_False by (by intros (? & _)).
Qed.

(** The entries at the end of the first loop: the value of the last
    result with these keys. *)
Lemma puzzles_loop_entry (results : list wordle_result) (puzzles0 puzzles : puzzles_map) :
  puzzles_loop results puzzles0 = Ok puzzles →
  Forall (λ r, is_Some (value_of (attempts r))) results
  ∧ ∀ yr num pl,
      entry puzzles yr num pl
      = match last_attempts results yr num pl with
        | Some a => value_of a
        | None => entry puzzles0 yr num pl
        end.
Proof.
  revert puzzles0. induction results as [|r results IH]; intros puzzles0; simpl.
  - intros [= <-]. by split.
  - intros (puzzles1 & H1 & H)%bind_Ok.
    apply group_result_entry in H1 as (v & Hv & H1).
    apply IH in H as [HF H]. split.
    + constructor; [|done]. unfold value_of. rewrite Hv. by eexists.
    + intros yr num pl. rewrite H, H1. unfold last_attempts.
      rewrite filter_cons. case_decide; [|done].
      rewrite last_cons. destruct (last (filter _ results)); simpl; [done|].
      unfold value_of. by rewrite Hv.
Qed.

Lemma last_attempts_is_Some (results : list wordle_result) (yr num : Z) (pl : str) :
  is_Some (last_attempts results yr num pl) ↔ num ∈ played results yr pl.
Proof.
  unfold last_attempts, played. rewrite fmap_is_Some, last_is_Some.
  rewrite elem_of_list_to_set, list_elem_of_fmap. split.
  - intros Hne. destruct (filter (same_key yr num pl) results) as [|r l] eqn:E; [done|].
    assert (r ∈ filter (same_key yr num pl) results) as Hr by (rewrite E; left).
    apply list_elem_of_filter in Hr as [(Hy & Hn & Hp) Hr].
    exists r. split; [done|]. apply list_elem_of_filter. by split.
  - intros (r & -> & [[Hy Hp] Hr]%list_elem_of_filter) E.
    assert (r ∈ filter (same_key yr (puzzle_num r) pl) results) as Hr'
      by (apply list_elem_of_filter; by split).
    rewrite E in Hr'. by apply elem_of_nil in Hr'.
Qed.

Lemma last_attempts_elem (results : list wordle_result) (yr num : Z) (pl : str) a :
  last_attempts results yr num pl = Some a → ∃ r, r ∈ results ∧ attempts r = a.
Proof.
  unfold last_attempts. intros (r & Hr & ->)%fmap_Some.
  apply last_Some_elem_of, list_elem_of_filter in Hr as [_ Hr]. eauto.
Qed.

Lemma duel_is_Some (results : list wordle_result) (yr num : Z) :
  Forall (λ r, is_Some (value_of (attempts r))) results →
  is_Some (duel results yr num) ↔ num ∈ played_by_both results yr.
Proof.
  intros Hall. unfold played_by_both, duel.
  rewrite elem_of_intersection, <-!last_attempts_is_Some.
  rewrite Forall_forall in Hall.
  destruct (last_attempts results yr num hugo) as [a|] eqn:Ea,
           (last_attempts results yr num sylvain) as [b|] eqn:Eb; simpl.
  - apply last_attempts_elem in Ea as (ra & Hra & <-).
    apply last_attempts_elem in Eb as (rb & Hrb & <-).
    destruct (Hall ra Hra) as [x ->], (Hall rb Hrb) as [y ->].
    split; [|by eexists]. intros _. split; by eexists.
  - destruct (value_of a); split; try by intros [? ?]. all: by intros [_ [? ?]].
  - split; [by intros [? ?]|]. by intros [[? ?] _].
  - split; [by intros [? ?]|]. by intros [[? ?] _].
Qed.

(** The players of a puzzle in [puzzles] compare as their last results do. *)
Lemma versus_duel (results : list wordle_result) (puzzles : puzzles_map)
    (yr num : Z) (players : gmap str Z) :
  puzzles_loop results ∅ = Ok puzzles →
  default ∅ (puzzles !! yr) !! num = Some players →
  versus players = duel results yr num.
Proof.
  intros [_ H]%puzzles_loop_entry Hp.
  assert (∀ pl, players !! pl = last_attempts results yr num pl ≫= value_of) as Hpl.
  { intros pl. specialize (H yr num pl). rewrite entry_empty in H.
    unfold entry in H. destruct (puzzles !! yr) as [yp|]; simpl in *; [|done].
    rewrite Hp in H. simpl in H. rewrite H.
    by destruct (last_attempts results yr num pl). }
  unfold versus, duel. by rewrite !Hpl.
Qed.

Lemma duel_entry (results : list wordle_result) (puzzles : puzzles_map) (yr num : Z) :
  puzzles_loop results ∅ = Ok puzzles →
  is_Some (duel results yr num) →
  is_Some (default ∅ (puzzles !! yr) !! num).
Proof.
  intros [_ H]%puzzles_loop_entry Hd. specialize (H yr num hugo).
  rewrite entry_empty in H. unfold duel in Hd.
  destruct (last_attempts results yr num hugo) as [a|]; simpl in *; [|by destruct Hd].
  destruct (value_of a) as [x|]; [|by destruct Hd].
  unfold entry in H. destruct (puzzles !! yr) as [yp|]; simpl in *; [|done].
  destruct (yp !! num); [by eexists|done].
Qed.

(** The puzzles of a year whose players compare in some way are the
    puzzles both played whose last results compare in that way. *)
Lemma versus_duel_elem (Q : option comparison → Prop)
    (results : list wordle_result) (puzzles : puzzles_map) (yr num : Z) :
  ¬ Q None →
  puzzles_loop results ∅ = Ok puzzles →
  Q (duel results yr num) ∧ num ∈ played_by_both results yr
  ↔ ∃ players, default ∅ (puzzles !! yr) !! num = Some players ∧ Q (versus players).
Proof.
  intros HQ Hloop.
  pose proof (puzzles_loop_entry _ _ _ Hloop) as [Hall _].
  rewrite <-duel_is_Some by done. split.
  - intros [Hq Hd].
    destruct (duel_entry results puzzles yr num Hloop Hd) as [players Hp].
    exists players. split; [done|]. by rewrite (versus_duel results puzzles yr num).
  - intros (players & Hp & Hq).
    rewrite (versus_duel results puzzles yr num) in Hq by done.
    split; [done|]. destruct (duel results yr num); [by eexists|done].
Qed.

Lemma tallied_duel (c : comparison) (results : list wordle_result)
    (puzzles : puzzles_map) (yr : Z) :
  puzzles_loop results ∅ = Ok puzzles →
  tallied c (default ∅ (puzzles !! yr))
  = size (filter (λ num, duel results yr num = Some c) (played_by_both results yr)).
Proof.
  intros Hloop. unfold tallied. rewrite <-size_dom. f_equal.
  apply dom_filter_L. intros num. rewrite elem_of_filter.
  by apply (versus_duel_elem (λ o, o = Some c)).
Qed.

Lemma compared_played_by_both (results : list wordle_result)
    (puzzles : puzzles_map) (yr : Z) :
  puzzles_loop results ∅ = Ok puzzles →
  compared (default ∅ (puzzles !! yr)) = size (played_by_both results yr).
Proof.
  intros Hloop. unfold compared. rewrite <-size_dom. f_equal.
  apply dom_filter_L. intros num.
  rewrite <-(versus_duel_elem is_Some results puzzles yr num) by (done || by intros [? ?]).
  pose proof (puzzles_loop_entry _ _ _ Hloop) as [Hall _].
  rewrite duel_is_Some by done. tauto.
Qed.

End Puzzles.

Section HeadToHeadFacts.
Context {R : Runtime}.

(** The tallies of a year, in terms of the records. *)
Lemma head_to_head_tallied (results : list wordle_result) (h2h_stats : gmap Z h2h)
    (yr : Z) :
  calculate_head_to_head results = Ok h2h_stats →
  ∃ year_puzzles,
    tallies h2h_stats yr year_puzzles
    ∧ (∀ c, tallied c year_puzzles
            = size (filter (λ num, duel results yr num = Some c) (played_by_both results yr)))
    ∧ compared year_puzzles = size (played_by_both results yr).
Proof.
  unfold calculate_head_to_head. intros (puzzles & Hloop & [= <-])%bind_Ok.
  exists (default ∅ (puzzles !! yr)). split_and!.
  - apply compare_all_tallies.
  - intros c. by apply tallied_duel.
  - by apply compared_played_by_both.
Qed.

(** Two results for one puzzle of one year, the first participant with
    [a], the second with [b]. *)
Lemma head_to_head_pair (r1 r2 : wordle_result) (x y : Z) :
  player r1 = hugo → player r2 = sylvain →
  year r2 = year r1 → puzzle_num r2 = puzzle_num r1 →
  attempts_val (attempts r1) = Ok x → attempts_val (attempts r2) = Ok y →
  calculate_head_to_head [r1; r2]
  = Ok {[ year r1 := score (x ?= y) new_h2h ]}.
Proof.
  intros Hp1 Hp2 Hy Hn Hx Hy'.
  unfold calculate_head_to_head, puzzles_loop, group_result.
  rewrite Hx. simpl. rewrite Hy'. simpl. rewrite Hy, Hn, Hp1, Hp2.
  rewrite !lookup_empty. simpl. rewrite !lookup_empty. simpl.
  rewrite !lookup_insert_eq. simpl. rewrite !lookup_insert_eq. simpl.
  rewrite !insert_insert_eq. f_equal.
  unfold compare_all. rewrite insert_empty, map_fold_singleton.
  unfold compare_year. rewrite insert_empty, map_fold_singleton.
  rewrite compare_players_versus. unfold versus.
  rewrite lookup_insert_ne by done. rewrite !lookup_insert_eq.
  unfold year_h2h. by rewrite lookup_empty, insert_empty.
Qed.

End HeadToHeadFacts.

Section NumericValues.
Context {R : Runtime}.

Lemma numeric_value_token (a : str) : is_Some (numeric_value a) ↔ attempts_token a.
Proof.
  unfold numeric_value, attempts_token. split.
  - destruct a as [|c [|c' a]]; try by intros [? ?]. intros H. exists c. split; [done|].
    destruct (decide (c = chr "X")); [by left|]. right.
    destruct (isdecimal c); [done|by destruct H].
  - intros (c & -> & Hc). case_decide; [by eexists|].
    destruct Hc as [-> | Hc]; [done|]. rewrite Hc. by eexists.
Qed.

(** On a failure marker or a digit, [attempts_val] gives the numeric
    attempts value. *)
Lemma numeric_value_attempts_val (a : str) (v : Z) :
  numeric_value a = Some v → attempts_val a = Ok v.
Proof.
  unfold numeric_value, attempts_val. destruct a as [|c [|c' a]]; try done.
  destruct (decide (c = chr "X")) as [->|Hc]; [by intros [= <-]|].
  destruct (isdecimal c) eqn:Hd; [|done]. intros [= <-].
  rewrite decide_False by (intros [= ->]; done).
  rewrite py_int_short by (repeat constructor; simpl; done || lia).
  unfold decimal_value. simpl. done.
Qed.

Lemma last_attempts_player (results : list wordle_result) (yr num : Z) (pl : str) a :
  last_attempts results yr num pl = Some a →
  ∃ r, r ∈ results ∧ player r = pl ∧ attempts r = a.
Proof.
  unfold last_attempts. intros (r & Hr & ->)%fmap_Some.
  apply last_Some_elem_of, list_elem_of_filter in Hr as [(_ & _ & Hp) Hr]. eauto.
Qed.

(** When the results of the two participants are failure markers or
    digits, their last results compare in the code as their numeric
    attempts values do. *)
Lemma numeric_duel_duel (results : list wordle_result) (yr num : Z) :
  Forall (λ r, of_participant r → attempts_token (attempts r)) results →
  duel results yr num = numeric_duel results yr num.
Proof.
  intros Hall. rewrite Forall_forall in Hall.
  assert (∀ pl, pl = hugo ∨ pl = sylvain →
            last_attempts results yr num pl ≫= value_of
            = last_attempts results yr num pl ≫= numeric_value) as Hpl.
  { intros pl Hpl. destruct (last_attempts results yr num pl) as [a|] eqn:E; [|done].
    apply last_attempts_player in E as (r & Hr & Hp & <-). simpl.
    destruct (proj2 (numeric_value_token (attempts r))) as [v Hv].
    { apply Hall; [done|]. unfold of_participant. by rewrite Hp. }
    rewrite Hv. unfold value_of. by rewrite (numeric_value_attempts_val _ _ Hv). }
  unfold duel, numeric_duel. by rewrite !Hpl by auto.
Qed.

End NumericValues.

(** C3: [attempts_val] gives 7 for the failure marker, the numbers 1 to
    6 for "1" to "6", each below 7, and on every failure marker or digit
    the numeric attempts value; for every year, the wins of the first
    participant are the puzzles both played whose last results compare
    with the first strictly lower, the wins of the second those with the
    second strictly lower, the ties those with equal values, and a puzzle
    one of them did not play counts nowhere; when the results of the two
    participants are failure markers or digits, the values compared are
    their numeric attempts values; a failure of one against a result in
    6 of the other, for the same puzzle and year, is a win of the
    other. *)
Theorem C3_head_to_head {R : Runtime} results h2h_stats :
  calculate_head_to_head results = Ok h2h_stats →
  attempts_val (lit "X") = Ok 7
  ∧ (∀ a, a ∈ [lit "1"; lit "2"; lit "3"; lit "4"; lit "5"; lit "6"] →
          ∃ v, attempts_val a = Ok v ∧ 1 ≤ v < 7)
  ∧ attempts_val <$> [lit "1"; lit "2"; lit "3"; lit "4"; lit "5"; lit "6"]
    = [Ok 1; Ok 2; Ok 3; Ok 4; Ok 5; Ok 6]
  ∧ numeric_value <$> [lit "X"; lit "1"; lit "2"; lit "3"; lit "4"; lit "5"; lit "6"]
    = [Some 7; Some 1; Some 2; Some 3; Some 4; Some 5; Some 6]
  ∧ (∀ a v, numeric_value a = Some v → attempts_val a = Ok v)
  ∧ (∀ yr,
       hugo_wins (year_h2h h2h_stats yr)
       = Z.of_nat (size (filter (λ num, duel results yr num = Some Lt)
                           (played_by_both results yr)))
       ∧ sylvain_wins (year_h2h h2h_stats yr)
         = Z.of_nat (size (filter (λ num, duel results yr num = Some Gt)
                             (played_by_both results yr)))
       ∧ ties (year_h2h h2h_stats yr)
         = Z.of_nat (size (filter (λ num, duel results yr num = Some Eq)
                             (played_by_both results yr))))
  ∧ (Forall (λ r, of_participant r → attempts_token (attempts r)) results →
     ∀ yr,
       hugo_wins (year_h2h h2h_stats yr)
       = Z.of_nat (size (filter (λ num, numeric_duel results yr num = Some Lt)
                           (played_by_both results yr)))
       ∧ sylvain_wins (year_h2h h2h_stats yr)
         = Z.of_nat (size (filter (λ num, numeric_duel results yr num = Some Gt)
                             (played_by_both results yr)))
       ∧ ties (year_h2h h2h_stats yr)
         = Z.of_nat (size (filter (λ num, numeric_duel results yr num = Some Eq)
                             (played_by_both results yr))))
  ∧ (∀ r1 r2,
       player r1 = hugo → player r2 = sylvain →
       year r2 = year r1 → puzzle_num r2 = puzzle_num r1 →
       (attempts r1 = lit "X" → attempts r2 = lit "6" →
        calculate_head_to_head [r1; r2]
        = Ok {[ year r1 := {| hugo_wins := 0; sylvain_wins := 1; ties := 0 |} ]})
       ∧ (attempts r1 = lit "6" → attempts r2 = lit "X" →
          calculate_head_to_head [r1; r2]
          = Ok {[ year r1 := {| hugo_wins := 1; sylvain_wins := 0; ties := 0 |} ]})).
Proof.
  intros H.
  split_and!.
  - done.
  - intros a Ha. repeat (apply elem_of_cons in Ha as [->|Ha]; [eexists; by vm_compute|]).
    by apply elem_of_nil in Ha.
  - by vm_compute.
  - by vm_compute.
  - apply numeric_value_attempts_val.
  - intros yr. destruct (head_to_head_tallied results h2h_stats yr H)
      as (year_puzzles & (H1 & H2 & H3 & _) & Hc & _).
    by rewrite H1, H2, H3, !Hc.
  - intros Hall yr. destruct (head_to_head_tallied results h2h_stats yr H)
      as (year_puzzles & (H1 & H2 & H3 & _) & Hc & _).
    rewrite H1, H2, H3, !Hc.
    assert (∀ c, filter (λ num, duel results yr num = Some c) (played_by_both results yr)
                 = filter (λ num, numeric_duel results yr num = Some c)
                     (played_by_both results yr)) as Hf.
    { intros c. apply set_eq. intros num.
      by rewrite !elem_of_filter, (numeric_duel_duel results yr num Hall). }
    by rewrite !Hf.
  - intros r1 r2 Hp1 Hp2 Hy Hn. split; intros Ha1 Ha2.
    + by rewrite (head_to_head_pair r1 r2 7 6) by (by rewrite ?Ha1, ?Ha2).
    + by rewrite (head_to_head_pair r1 r2 6 7) by (by rewrite ?Ha1, ?Ha2).
Qed.

Lemma C3_head_to_head_witness :
  @calculate_head_to_head ascii_runtime close_results
  = Ok {[ 2023 := {| hugo_wins := 2; sylvain_wins := 0; ties := 0 |} ]}
  ∧ Z.of_nat (size (filter (λ num, @numeric_duel ascii_runtime close_results 2023 num
                                   = Some Lt)
                      (played_by_both close_results 2023))) = 2
  ∧ @numeric_duel ascii_runtime close_results 2023 800 = Some Lt.
Proof.
  assert (@calculate_head_to_head ascii_runtime close_results
          = Ok {[ 2023 := {| hugo_wins := 2; sylvain_wins := 0; ties := 0 |} ]}) as H
    by (vm_compute; reflexivity).
  split; [exact H|].
  assert (Forall (λ r, of_participant r → @attempts_token ascii_runtime (attempts r))
            close_results) as Hall.
  { unfold close_results, sample_results. cbn [app].
    repeat apply Forall_cons_2; [..|apply Forall_nil_2]; intros _;
      apply numeric_value_token; vm_compute; eexists; reflexivity. }
  destruct (@C3_head_to_head ascii_runtime close_results _ H)
    as (_ & _ & _ & _ & _ & _ & Hnum & _).
  split; [|vm_compute; reflexivity].
  destruct (Hnum Hall 2023) as (<- & _). reflexivity.
Defined.

(** C6: for every year, the three tallies add up to the number of
    puzzles of that year for which both participants have a record,
    each puzzle counted once however many records it has. *)
Theorem C6_tallies_add_up {R : Runtime} results h2h_stats yr :
  calculate_head_to_head results = Ok h2h_stats →
  hugo_wins (year_h2h h2h_stats yr) + sylvain_wins (year_h2h h2h_stats yr)
  + ties (year_h2h h2h_stats yr)
  = Z.of_nat (size (played_by_both results yr)).
Proof.
  intros H. destruct (head_to_head_tallied results h2h_stats yr H)
    as (year_puzzles & (_ & _ & _ & H4 & _) & _ & Hc).
  by rewrite H4, Hc.
Qed.

Lemma C6_tallies_add_up_witness :
  @calculate_head_to_head ascii_runtime (sample_results ++ sample_results)
  = Ok {[ 2023 := {| hugo_wins := 1; sylvain_wins := 0; ties := 0 |} ]}
  ∧ Z.of_nat (size (played_by_both (sample_results ++ sample_results) 2023)) = 1.
Proof.
  assert (@calculate_head_to_head ascii_runtime (sample_results ++ sample_results)
          = Ok {[ 2023 := {| hugo_wins := 1; sylvain_wins := 0; ties := 0 |} ]}) as H
    by (vm_compute; reflexivity).
  split; [exact H|].
  by rewrite <-(@C6_tallies_add_up ascii_runtime _ _ 2023 H).
Defined.

(** ** C2: the divisions of the reports *)

Lemma float_overflow_gt_1 : 1 < float_overflow.
Proof. by vm_compute. Qed.

Lemma true_div_zero (a b : Z) : true_div a b = Raise ZeroDivisionError ↔ b = 0.
Proof.
  unfold true_div. destruct (Z.eqb_spec b 0); [done|].
  by destruct (float_overflow * Z.abs b <=? Z.abs a).
Qed.

(** A part of a positive whole divides by it without an exception. *)
Lemma true_div_part (a b : Z) :
  0 ≤ a ≤ b → 1 ≤ b → true_div a b = Ok (Qc_of_Z a / Qc_of_Z b)%Qc.
Proof.
  intros Ha Hb. unfold true_div.
  destruct (Z.eqb_spec b 0); [lia|].
  destruct (Z.leb_spec (float_overflow * Z.abs b) (Z.abs a)) as [Hle|]; [|done].
  pose proof float_overflow_gt_1. nia.
Qed.

Lemma mapM_not_raising {A B} (f : A → result B) (l : list A) (e : exn) :
  (∀ x, f x ≠ Raise e) → mapM f l ≠ Raise e.
Proof.
  intros Hf. induction l as [|x l IH]; simpl; [done|].
  destruct (f x) as [y|e'] eqn:E; simpl.
  - by destruct (mapM f l).
  - intros [= ->]. by apply (Hf x).
Qed.

Lemma mapM_Ok {A B} (f : A → result B) (l : list A) :
  Forall (λ x, ∃ y, f x = Ok y) l → ∃ ys, mapM f l = Ok ys.
Proof.
  induction 1 as [|x l [y Hy] _ [ys IH]]; simpl; [by eexists|].
  rewrite Hy. simpl. rewrite IH. by eexists.
Qed.

Lemma summarize_no_zero_division (yr : Z) (ys : year_stats) :
  summarize yr ys ≠ Raise ZeroDivisionError.
Proof.
  unfold summarize.
  destruct (Z.ltb_spec 0 (total ys)) as [Ht|Ht]; simpl.
  - destruct (true_div (wins ys) (total ys)) as [q|e] eqn:Eq; simpl.
    + destruct (Z.ltb_spec 0 (wins ys)) as [Hw|Hw]; simpl; [|done].
      destruct (true_div (total_attempts ys) (wins ys)) as [q'|e] eqn:Eq'; simpl; [done|].
      intros [= ->]. apply true_div_zero in Eq'. lia.
    + intros [= ->]. apply true_div_zero in Eq. lia.
  - destruct (Z.ltb_spec 0 (wins ys)) as [Hw|Hw]; simpl; [|done].
    destruct (true_div (total_attempts ys) (wins ys)) as [q'|e] eqn:Eq'; simpl; [done|].
    intros [= ->]. apply true_div_zero in Eq'. lia.
Qed.

Lemma summarize_zero (yr : Z) (ys : year_stats) (s : summary) :
  summarize yr ys = Ok s →
  (total ys = 0 → s_win_rate s = 0%Qc) ∧ (wins ys = 0 → s_avg_attempts s = 0%Qc).
Proof.
  unfold summarize. intros (wr & Hwr & (avg & Havg & [= <-])%bind_Ok)%bind_Ok. simpl.
  split.
  - intros Ht. rewrite Ht in Hwr. simpl in Hwr. by injection Hwr.
  - intros Hw. rewrite Hw in Havg. simpl in Havg. by injection Havg.
Qed.

Lemma summarize_empty (yr : Z) (ys : year_stats) :
  total ys = 0 → wins ys = 0 → ∃ s, summarize yr ys = Ok s.
Proof. intros Ht Hw. unfold summarize. rewrite Ht, Hw. simpl. by eexists. Qed.

Lemma print_summary_no_zero_division (stats : stats_map) :
  print_summary stats ≠ Raise ZeroDivisionError.
Proof.
  unfold print_summary. apply mapM_not_raising. intros player.
  destruct (mapM _ (sorted_years (default ∅ (stats !! player)))) as [rows|e] eqn:E;
    simpl; [done|].
  intros [= ->]. revert E. apply mapM_not_raising.
  intros yr. apply summarize_no_zero_division.
Qed.

Lemma elem_of_sorted_years {V} (d : gmap Z V) (yr : Z) :
  yr ∈ sorted_years d ↔ is_Some (d !! yr).
Proof.
  unfold sorted_years. rewrite merge_sort_Permutation, list_elem_of_fmap. split.
  - intros ([y v] & -> & Hv%elem_of_map_to_list). by eexists.
  - intros [v Hv]. exists (yr, v). split; [done|]. by apply elem_of_map_to_list.
Qed.

Lemma report_year_Ok (yr : Z) (h : h2h) :
  0 ≤ hugo_wins h → 0 ≤ sylvain_wins h → 0 ≤ ties h →
  1 ≤ hugo_wins h + sylvain_wins h + ties h →
  ∃ line, report_year yr h = Ok line.
Proof.
  intros. unfold report_year. rewrite !true_div_part by lia. simpl. by eexists.
Qed.

Section Reports.
Context {R : Runtime}.

(** A year is in what [calculate_head_to_head] returns when, and only
    when, both participants have a record for one of its puzzles. *)
Lemma head_to_head_years (results : list wordle_result) (h2h_stats : gmap Z h2h) (yr : Z) :
  calculate_head_to_head results = Ok h2h_stats →
  h2h_stats !! yr = None ↔ played_by_both results yr = ∅.
Proof.
  intros H. destruct (head_to_head_tallied results h2h_stats yr H)
    as (year_puzzles & (_ & _ & _ & _ & H5) & _ & Hc).
  rewrite H5, Hc, size_empty_iff. apply leibniz_equiv_iff.
Qed.

Lemma report_head_to_head_Ok (results : list wordle_result) (h2h_stats : gmap Z h2h) :
  calculate_head_to_head results = Ok h2h_stats →
  ∃ lines, report_head_to_head h2h_stats = Ok lines.
Proof.
  intros H. unfold report_head_to_head. apply mapM_Ok.
  apply Forall_forall. intros yr [v Hv]%elem_of_sorted_years.
  destruct (head_to_head_tallied results h2h_stats yr H)
    as (year_puzzles & (H1 & H2 & H3 & H4 & H5) & _).
  assert (compared year_puzzles ≠ 0%nat) as Hne by (rewrite <-H5; congruence).
  unfold year_h2h in *. rewrite Hv in *. simpl in *.
  apply report_year_Ok; lia.
Qed.

End Reports.

(** C2: with the aggregates of any list of records, [print_summary]
    does not raise [ZeroDivisionError]: for any bucket the win rate is 0
    when [total] is 0 and the mean is 0 when [wins] is 0; the
    head-to-head report raises nothing, and a year with no puzzle that
    both participants played has no entry to report. *)
Theorem C2_no_division_by_zero {R : Runtime} results stats h2h_stats :
  calculate_statistics results = Ok stats →
  calculate_head_to_head results = Ok h2h_stats →
  print_summary stats ≠ Raise ZeroDivisionError
  ∧ (∀ yr ys,
       summarize yr ys ≠ Raise ZeroDivisionError
       ∧ (∀ s, summarize yr ys = Ok s →
               (total ys = 0 → s_win_rate s = 0%Qc)
               ∧ (wins ys = 0 → s_avg_attempts s = 0%Qc))
       ∧ (total ys = 0 → wins ys = 0 → ∃ s, summarize yr ys = Ok s))
  ∧ (∃ lines, report_head_to_head h2h_stats = Ok lines)
  ∧ (∀ yr, played_by_both results yr = ∅ ↔ h2h_stats !! yr = None).
Proof.
  intros Hs Hh. split_and!.
  - apply print_summary_no_zero_division.
  - intros yr ys. split_and!.
    + apply summarize_no_zero_division.
    + apply summarize_zero.
    + apply summarize_empty.
  - by eapply report_head_to_head_Ok.
  - intros yr. symmetry. by apply head_to_head_years.
Qed.

Lemma C2_no_division_by_zero_witness :
  ∃ stats h2h_stats,
    @calculate_statistics ascii_runtime sample_results = Ok stats
    ∧ @calculate_head_to_head ascii_runtime sample_results = Ok h2h_stats
    ∧ print_summary stats ≠ Raise ZeroDivisionError
    ∧ (∃ lines, report_head_to_head h2h_stats = Ok lines)
    ∧ h2h_stats !! 2024 = None.
Proof.
  assert (∃ stats, @calculate_statistics ascii_runtime sample_results = Ok stats)
    as [stats Hs] by (eexists; vm_compute; reflexivity).
  assert (∃ h2h_stats, @calculate_head_to_head ascii_runtime sample_results = Ok h2h_stats)
    as [h2h_stats Hh] by (eexists; vm_compute; reflexivity).
  exists stats, h2h_stats.
  destruct (@C2_no_division_by_zero ascii_runtime sample_results stats h2h_stats Hs Hh)
    as (H1 & _ & H3 & H4).
  split_and!; [exact Hs|exact Hh|exact H1|exact H3|].
  apply H4. vm_compute. reflexivity.
Defined.

(** ** From the extractor to the reports *)

Lemma nine_lt_float_overflow : 9 < float_overflow.
Proof. by vm_compute. Qed.

Lemma true_div_small (a b : Z) :
  b ≠ 0 → Z.abs a ≤ 9 * Z.abs b → true_div a b = Ok (Qc_of_Z a / Qc_of_Z b)%Qc.
Proof.
  intros Hb Ha. unfold true_div.
  destruct (Z.eqb_spec b 0); [done|].
  destruct (Z.leb_spec (float_overflow * Z.abs b) (Z.abs a)) as [Hle|]; [|done].
  pose proof nine_lt_float_overflow. nia.
Qed.

Lemma summarize_bounded (yr : Z) (ys : year_stats) :
  bounded ys → ∃ s, summarize yr ys = Ok s.
Proof.
  intros (Hw & Hl & Ht & Ha). unfold summarize.
  assert (∃ q, (if 0 <? total ys
                then q ← true_div (wins ys) (total ys); Ok (q * Qc_of_Z 100)%Qc
                else Ok 0%Qc) = Ok q) as [q ->].
  { destruct (Z.ltb_spec 0 (total ys)); [|by eexists].
    rewrite true_div_small by lia. by eexists. }
  assert (∃ q, (if 0 <? wins ys then true_div (total_attempts ys) (wins ys) else Ok 0%Qc)
               = Ok q) as [q' ->].
  { destruct (Z.ltb_spec 0 (wins ys)); [|by eexists].
    rewrite true_div_small by lia. by eexists. }
  by eexists.
Qed.

Lemma elem_of_sorted_players {V} (d : gmap str V) (player : str) :
  player ∈ sorted_players d ↔ is_Some (d !! player).
Proof.
  unfold sorted_players. rewrite merge_sort_Permutation, list_elem_of_fmap. split.
  - intros ([p v] & -> & Hv%elem_of_map_to_list). by eexists.
  - intros [v Hv]. exists (player, v). split; [done|]. by apply elem_of_map_to_list.
Qed.

Lemma print_summary_bounded (stats : stats_map) :
  all_buckets bounded stats → ∃ rows, print_summary stats = Ok rows.
Proof.
  intros Hall. unfold print_summary. apply mapM_Ok, Forall_forall.
  intros player [years Hyears]%elem_of_sorted_players. rewrite Hyears. simpl.
  destruct (mapM_Ok (λ yr, summarize yr (default new_year_stats (years !! yr)))
              (sorted_years years)) as [rows ->]; [|by eexists].
  apply Forall_forall. intros yr [ys Hys]%elem_of_sorted_years.
  rewrite Hys. simpl. apply summarize_bounded. by eapply Hall.
Qed.

Section Pipeline.
Context {R : Runtime}.

Lemma token_tally (a : str) (t : tally) :
  attempts_token a → tally_of a = Ok t → one_digit t.
Proof.
  intros (c & -> & Hc). unfold tally_of. case_decide as HX; [by intros [= <-]|].
  destruct Hc as [->|Hc]; [done|].
  rewrite py_int_short by (repeat constructor; simpl; done || lia).
  intros [= <-]. unfold decimal_value. simpl. by apply todecimal_range.
Qed.

Lemma token_attempts_val (a : str) : attempts_token a → ∃ v, attempts_val a = Ok v.
Proof.
  intros (c & -> & Hc). unfold attempts_val. case_decide; [by eexists|].
  destruct Hc as [->|Hc]; [done|].
  rewrite py_int_short by (repeat constructor; simpl; done || lia). by eexists.
Qed.

Lemma puzzles_loop_of_tokens (results : list wordle_result) (puzzles : puzzles_map) :
  Forall (λ r, attempts_token (attempts r)) results →
  ∃ puzzles', puzzles_loop results puzzles = Ok puzzles'.
Proof.
  intros H. revert puzzles. induction H as [|r results Hr _ IH]; intros puzzles; simpl.
  - by eexists.
  - unfold group_result. destruct (token_attempts_val _ Hr) as [v ->]. simpl. apply IH.
Qed.

End Pipeline.

(** On the records [parse_html_files] returns, the two aggregations and
    the two reports raise nothing. *)
Theorem pipeline_raises_nothing {R : Runtime} files results :
  parse_html_files files = Ok results →
  ∃ stats h2h_stats rows lines,
    calculate_statistics results = Ok stats
    ∧ calculate_head_to_head results = Ok h2h_stats
    ∧ print_summary stats = Ok rows
    ∧ report_head_to_head h2h_stats = Ok lines.
Proof.
  intros Hparse.
  assert (Forall (λ r, attempts_token (attempts r)) results) as Htok.
  { eapply parse_html_files_Forall; [|exact Hparse].
    intros cp msg r H. by apply extract_Some in H as (_ & _ & ? & _). }
  destruct (calculate_statistics_of_tokens results Htok) as [stats Hstats].
  destruct (puzzles_loop_of_tokens results ∅ Htok) as [puzzles Hpuzzles].
  assert (calculate_head_to_head results = Ok (compare_all puzzles)) as Hh2h
    by (unfold calculate_head_to_head; by rewrite Hpuzzles).
  destruct (report_head_to_head_Ok results _ Hh2h) as [lines Hlines].
  destruct (print_summary_bounded stats) as [rows Hrows]; [|by eauto 10].
  apply (statistics_loop_all bounded one_digit results ∅ stats).
  - unfold bounded. simpl. lia.
  - intros t ys. apply count_bounded.
  - eapply Forall_impl; [exact Htok|]. intros r Hr t. by apply token_tally.
  - intros p y yr ys. by rewrite lookup_empty.
  - exact Hstats.
Qed.

Lemma pipeline_raises_nothing_witness :
  @parse_html_files ascii_runtime seven_attempts
  = Ok [sample_result "Hugo Ledoux" 798 "7" 2023 8 26]
  ∧ ∃ stats h2h_stats rows lines,
      @calculate_statistics ascii_runtime [sample_result "Hugo Ledoux" 798 "7" 2023 8 26]
      = Ok stats
      ∧ @calculate_head_to_head ascii_runtime
          [sample_result "Hugo Ledoux" 798 "7" 2023 8 26] = Ok h2h_stats
      ∧ print_summary stats = Ok rows
      ∧ report_head_to_head h2h_stats = Ok lines.
Proof.
  assert (@parse_html_files ascii_runtime seven_attempts
          = Ok [sample_result "Hugo Ledoux" 798 "7" 2023 8 26]) as H
    by (vm_compute; reflexivity).
  split; [exact H|]. exact (@pipeline_raises_nothing ascii_runtime _ _ H).
Defined.

(** ** Dates and names *)

(** A title that matches the date pattern without being a date of the
    calendar makes [datetime] raise, and the exception leaves
    [parse_html_files]; a title that does not match the pattern only
    skips the message. *)
Theorem impossible_date_raises {R : Runtime} :
  parse_html_files
    [[sample_message "Hugo Ledoux" "Wordle 798 3/6" "31.02.2023 08:38:51 UTC+01:00"]]
  = Raise ValueError
  ∧ parse_html_files
      [[sample_message "Hugo Ledoux" "Wordle 798 3/6" "01.01.0000 00:00:00 UTC"]]
    = Raise ValueError
  ∧ parse_html_files
      [[sample_message "Hugo Ledoux" "Wordle 798 3/6" "1.2.2023 08:38:51 UTC+01:00"]]
    = Ok [].
Proof. split_and!; vm_compute; reflexivity. Qed.

(** The forwarding annotation is removed from a name, wherever it
    stands, and the name is stripped before. *)
Theorem via_annotation_removed {R : Runtime} :
  next_player None (sample_message "Jane Doe via @SomeBot" "" "") = Some (lit "Jane Doe")
  ∧ next_player None (sample_message "  Jane Doe  " "" "") = Some (lit "Jane Doe")
  ∧ next_player None (sample_message "Jane via @Some_Bot2 Doe" "" "") = Some (lit "Jane Doe")
  ∧ next_player (Some (lit "Jane Doe")) (sample_message " via @SomeBot" "" "")
    = Some (lit "via @SomeBot").
Proof. split_and!; vm_compute; reflexivity. Qed.

(** * Further properties *)

(** ** The extractor over several files *)

Section Files.
Context {R : Runtime}.

(** The results so far only stand in front of what the loop adds. *)
Lemma messages_loop_results messages current_player results :
  messages_loop messages current_player results
  = added ← messages_loop messages current_player []; Ok (results ++ added).
Proof.
  revert current_player results.
  induction messages as [|msg messages IH]; intros cp results; simpl.
  - by rewrite app_nil_r.
  - destruct (extract (next_player cp msg) msg) as [o|e]; simpl; [|done].
    rewrite (IH _ (results ++ option_list o)), (IH _ (option_list o)).
    destruct (messages_loop messages (next_player cp msg) []) as [added|e]; simpl; [|done].
    by rewrite (assoc_L (++)).
Qed.

Lemma files_loop_results files results :
  files_loop files results = added ← files_loop files []; Ok (results ++ added).
Proof.
  revert results. induction files as [|messages files IH]; intros results; simpl.
  - by rewrite app_nil_r.
  - rewrite (messages_loop_results _ _ results).
    destruct (messages_loop messages None []) as [added|e]; simpl; [|done].
    rewrite (IH (results ++ added)), (IH added).
    destruct (files_loop files []) as [added'|e]; simpl; [|done].
    by rewrite (assoc_L (++)).
Qed.

Lemma extract_raise current_player msg e :
  extract current_player msg = Raise e → e = ValueError.
Proof.
  unfold extract. destruct (text msg) as [txt|]; [|done].
  destruct (re_search wordle_re txt) as [gs|]; [|done].
  destruct current_player as [[|c p]|]; [done| |done].
  destruct (py_int (remove_commas (group gs 1))) as [n|e'] eqn:En; simpl;
    [|intros [= <-]; by eapply py_int_raise].
  destruct (details msg) as [[[|t0 title]|]|]; [done| |done|done].
  destruct (re_match date_re (t0 :: title)) as [dm|]; [|done].
  destruct (py_int (group dm 3)) as [y|e'] eqn:Ey; simpl;
    [|intros [= <-]; by eapply py_int_raise].
  destruct (py_int (group dm 2)) as [m|e'] eqn:Em; simpl;
    [|intros [= <-]; by eapply py_int_raise].
  destruct (py_int (group dm 1)) as [d|e'] eqn:Ed; simpl;
    [|intros [= <-]; by eapply py_int_raise].
  unfold new_datetime. destruct (valid_date y m d); simpl; [done|]. by intros [= <-].
Qed.

Lemma messages_loop_raise messages current_player results e :
  messages_loop messages current_player results = Raise e → e = ValueError.
Proof.
  revert current_player results.
  induction messages as [|msg messages IH]; intros cp results; simpl; [done|].
  destruct (extract (next_player cp msg) msg) as [o|e'] eqn:E; simpl.
  - apply IH.
  - intros [= <-]. by eapply extract_raise.
Qed.

Lemma extract_needs_text current_player msg r :
  extract current_player msg = Ok (Some r) → is_Some (text msg).
Proof. unfold extract. destruct (text msg); [by eexists|done]. Qed.

Lemma messages_loop_length messages current_player results out :
  messages_loop messages current_player results = Ok out →
  (length out ≤ length results + length (filter (λ m, is_Some (text m)) messages))%nat.
Proof.
  revert current_player results.
  induction messages as [|msg messages IH]; intros cp results; simpl.
  - intros [= <-]. lia.
  - intros (o & Ho & H)%bind_Ok. apply IH in H. rewrite length_app in H.
    rewrite filter_cons. destruct o as [r|]; simpl in *.
    + apply extract_needs_text in Ho. rewrite decide_True by done. simpl. lia.
    + case_decide; simpl; lia.
Qed.

End Files.

(** The files are read one after the other and independently: the
    result for [files1 ++ files2] is the records of [files1] followed by
    those of [files2], or the exception of the first that raises. *)
Theorem parse_html_files_app {R : Runtime} files1 files2 :
  parse_html_files (files1 ++ files2)
  = results1 ← parse_html_files files1;
    results2 ← parse_html_files files2;
    Ok (results1 ++ results2).
Proof.
  unfold parse_html_files. rewrite files_loop_app.
  destruct (files_loop files1 []) as [results1|e]; simpl; [|done].
  apply files_loop_results.
Qed.

(** The only exception [parse_html_files] raises is [ValueError]. *)
Theorem parse_html_files_raises_ValueError {R : Runtime} files e :
  parse_html_files files = Raise e → e = ValueError.
Proof.
  unfold parse_html_files. generalize (@nil wordle_result).
  induction files as [|messages files IH]; intros results; simpl; [done|].
  destruct (messages_loop messages None results) as [results'|e'] eqn:E; simpl.
  - apply IH.
  - intros [= <-]. by eapply messages_loop_raise.
Qed.

Lemma parse_html_files_raises_ValueError_witness :
  @parse_html_files ascii_runtime [[comma_only]] = Raise ValueError
  ∧ ValueError = ValueError.
Proof.
  assert (@parse_html_files ascii_runtime [[comma_only]] = Raise ValueError) as H
    by (vm_compute; reflexivity).
  split; [exact H|]. exact (@parse_html_files_raises_ValueError ascii_runtime _ _ H).
Defined.

(** A message gives at most one record, whatever the number of mentions
    in its text, and none when it has no text. *)
Theorem parse_html_files_length {R : Runtime} files results :
  parse_html_files files = Ok results →
  (length results ≤ length (filter (λ m, is_Some (text m)) (concat files)))%nat.
Proof.
  unfold parse_html_files.
  assert (∀ acc out, files_loop files acc = Ok out →
            (length out ≤ length acc
                          + length (filter (λ m, is_Some (text m)) (concat files)))%nat) as H.
  { induction files as [|messages files IH]; intros acc out; simpl.
    - intros [= <-]. lia.
    - intros (acc' & Hm & H)%bind_Ok. apply IH in H. apply messages_loop_length in Hm.
      rewrite filter_app, length_app. lia. }
  intros H0. apply H in H0. simpl in H0. lia.
Qed.

Lemma parse_html_files_length_witness :
  @parse_html_files ascii_runtime seven_attempts
  = Ok [sample_result "Hugo Ledoux" 798 "7" 2023 8 26]
  ∧ (length [sample_result "Hugo Ledoux" 798 "7" 2023 8 26]
     ≤ length (filter (λ m, is_Some (text m)) (concat seven_attempts)))%nat.
Proof.
  assert (@parse_html_files ascii_runtime seven_attempts
          = Ok [sample_result "Hugo Ledoux" 798 "7" 2023 8 26]) as H
    by (vm_compute; reflexivity).
  split; [exact H|]. exact (@parse_html_files_length ascii_runtime _ _ H).
Defined.

(** ** The name of the player *)

Lemma take_drop_while {A} (p : A → bool) (l : list A) :
  take_while p l ++ drop_while p l = l.
Proof. induction l as [|x l IH]; simpl; [done|]. destruct (p x); simpl; by f_equal. Qed.

Lemma drop_while_head {A} (p : A → bool) (l : list A) x l' :
  drop_while p l = x :: l' → p x = false.
Proof.
  induction l as [|y l IH]; simpl; [done|].
  destruct (p y) eqn:E; [done|]. by intros [= <- _].
Qed.

(** What [strip_with] removes and what it leaves. *)
Lemma strip_with_spec (p : codepoint → bool) (s : str) :
  ∃ a b, s = a ++ strip_with p s ++ b
         ∧ Forall (λ c, p c = true) a ∧ Forall (λ c, p c = true) b
         ∧ (∀ c, head (strip_with p s) = Some c → p c = false)
         ∧ (∀ c, last (strip_with p s) = Some c → p c = false).
Proof.
  unfold strip_with.
  pose proof (take_drop_while p s) as Hs.
  pose proof (take_drop_while p (reverse (drop_while p s))) as Hr.
  set (d := drop_while p s) in *.
  set (d' := drop_while p (reverse d)) in *.
  assert (d = reverse d' ++ reverse (take_while p (reverse d))) as Hd.
  { rewrite <-reverse_app, Hr. by rewrite reverse_involutive. }
  exists (take_while p s), (reverse (take_while p (reverse d))). split_and!.
  - by rewrite <-Hd.
  - apply take_while_Forall.
  - apply Forall_reverse, take_while_Forall.
  - intros c Hc. destruct (reverse d') as [|x l] eqn:E; [done|].
    injection Hc as ->.
    by apply (drop_while_head p s c (l ++ reverse (take_while p (reverse d)))).
  - intros c Hc. rewrite last_reverse in Hc.
    destruct d' as [|x l] eqn:E; [done|]. injection Hc as ->.
    by apply (drop_while_head p (reverse d) c l).
Qed.

Section Removal.
Implicit Types (re : regex) (s cur : str) (gs : list str).

(** A match reads every literal character of its pattern. *)
Lemma re_exec_lit_elem re s cur gs r c :
  re_exec re s cur gs = Some r → Lit c ∈ re → c ∈ s.
Proof.
  revert s cur gs. induction re as [|it re IH]; intros s cur gs H Hc.
  { by apply elem_of_nil in Hc. }
  apply elem_of_cons in Hc. destruct it as [c0|p|p| |].
  - apply re_exec_lit in H as (s' & -> & H).
    destruct Hc as [[= ->]|Hc]; [left|right; by eapply IH].
  - apply re_exec_cls in H as (x & s' & -> & _ & H).
    destruct Hc as [?|Hc]; [done|]. right. by eapply IH.
  - apply re_exec_plus in H as (k & _ & H).
    destruct Hc as [?|Hc]; [done|].
    rewrite <-(take_drop k s). apply elem_of_app. right. by eapply IH.
  - rewrite re_exec_open in H. destruct Hc as [?|Hc]; [done|]. by eapply IH.
  - rewrite re_exec_close in H. destruct Hc as [?|Hc]; [done|]. by eapply IH.
Qed.

(** [re.sub] with the empty string only deletes characters. *)
Lemma re_remove_from_sublist re s skip : re_remove_from re s skip `sublist_of` s.
Proof.
  revert skip. induction s as [|c s IH]; intros skip; simpl; [done|].
  destruct skip as [|k]; [|by apply sublist_cons].
  destruct (re_exec re (c :: s) [] []) as [[g rest]|];
    [destruct (_ - _)%nat|]; by constructor.
Qed.

(** A text with no match is left as it is. *)
Lemma re_remove_from_no_match re s :
  (∀ t, t `suffix_of` s → re_exec re t [] [] = None) → re_remove_from re s 0 = s.
Proof.
  induction s as [|c s IH]; intros H; simpl; [done|].
  rewrite (H (c :: s)) by done. f_equal. apply IH.
  intros t Ht. apply H. by apply suffix_cons_r.
Qed.

End Removal.

(** The name kept from a label is the label with characters deleted
    and none added; when the label holds no [@] it is the label without
    the whitespace at its two ends. *)
Theorem next_player_label {R : Runtime} current_player msg name :
  from_name msg = Some name →
  ∃ player,
    next_player current_player msg = Some player
    ∧ player `sublist_of` name
    ∧ (chr "@" ∉ name →
       ∃ a b, name = a ++ player ++ b
              ∧ Forall (λ c, isspace c = true) a ∧ Forall (λ c, isspace c = true) b
              ∧ (∀ c, head player = Some c → isspace c = false)
              ∧ (∀ c, last player = Some c → isspace c = false)).
Proof.
  intros Hname. unfold next_player. rewrite Hname. eexists. split; [done|].
  destruct (strip_with_spec isspace name) as (a & b & Hs & Ha & Hb & Hh & Hl).
  fold (strip name) in *. split.
  - etrans; [apply re_remove_from_sublist|].
    rewrite Hs at 2. apply sublist_inserts_l, sublist_inserts_r. done.
  - intros Hat.
    assert (re_remove via_re (strip name) = strip name) as ->; [|by exists a, b].
    apply re_remove_from_no_match. intros t [k Ht].
    destruct (re_exec via_re t [] []) as [r|] eqn:E; [|done].
    exfalso. apply Hat. rewrite Hs, Ht.
    apply elem_of_app. right. apply elem_of_app. left. apply elem_of_app. right.
    eapply re_exec_lit_elem; [exact E|].
    unfold via_re. set_solver.
Qed.

Lemma next_player_label_witness :
  ∃ player,
    @next_player ascii_runtime None (sample_message "  Jane Doe  " "" "") = Some player
    ∧ player `sublist_of` lit "  Jane Doe  "
    ∧ (chr "@" ∉ lit "  Jane Doe  " →
       ∃ a b, lit "  Jane Doe  " = a ++ player ++ b
              ∧ Forall (λ c, @isspace ascii_runtime c = true) a ∧ Forall (λ c, @isspace ascii_runtime c = true) b
              ∧ (∀ c, head player = Some c → @isspace ascii_runtime c = false)
              ∧ (∀ c, last player = Some c → @isspace ascii_runtime c = false)).
Proof.
  exact (@next_player_label ascii_runtime None (sample_message "  Jane Doe  " "" "")
           (lit "  Jane Doe  ") eq_refl).
Defined.

(** ** When the extractor raises *)

Ltac re_step H :=
  first
    [ rewrite re_exec_open in H
    | rewrite re_exec_close in H
    | rewrite re_exec_nil in H
    | let c := fresh "c" in
      let s := fresh "s" in
      let Hc := fresh "Hc" in
      apply re_exec_cls in H as (c & s & -> & Hc & H)
    | let s := fresh "s" in
      apply re_exec_lit in H as (s & -> & H) ].

Lemma bind_Ok_eq {A B} (a : A) (f : A → result B) : Ok a ≫= f = f a.
Proof. done. Qed.

Section Raising.
Context {R : Runtime}.

(** A match of the date pattern: two, two and four digits. *)
Lemma date_match_inv s gs :
  re_match date_re s = Some gs →
  ∃ day month year,
    gs = [day; month; year]
    ∧ length day = 2%nat ∧ length month = 2%nat ∧ length year = 4%nat
    ∧ Forall (λ c, isdecimal c = true) day
    ∧ Forall (λ c, isdecimal c = true) month
    ∧ Forall (λ c, isdecimal c = true) year.
Proof.
  unfold re_match. destruct (re_exec date_re s [] []) as [[g rest]|] eqn:H; [|done].
  intros [= <-]. unfold date_re in H. repeat re_step H.
  injection H as <- <-.
  eexists [_; _], [_; _], [_; _; _; _]. split; [reflexivity|].
  split_and!; [done..| | |]; repeat constructor; assumption.
Qed.

(** The three numbers of a matched date are read without an exception. *)
Lemma date_match_numbers title dm :
  re_match date_re title = Some dm →
  py_int (group dm 3) = Ok (decimal_value (group dm 3))
  ∧ py_int (group dm 2) = Ok (decimal_value (group dm 2))
  ∧ py_int (group dm 1) = Ok (decimal_value (group dm 1)).
Proof.
  intros (day & month & year & -> & Hd & Hm & Hy & Fd & Fm & Fy)%date_match_inv.
  unfold group. simpl.
  split_and!; apply py_int_short; try done.
  all: try (intros ->; done). all: lia.
Qed.

End Raising.

(** [extract] raises, and then [ValueError], exactly when the text has
    a mention, the current player is a non-empty name, and either the
    number of the mention has no digit, or it has more digits than the
    limit of [int], or the title matches the date pattern and its
    numbers are not a date of the calendar. *)
Theorem extract_raises_iff {R : Runtime} current_player msg e :
  extract current_player msg = Raise e
  ↔ e = ValueError
    ∧ ∃ txt num tok,
        text msg = Some txt
        ∧ re_search wordle_re txt = Some [num; [tok]]
        ∧ (∃ c p, current_player = Some (c :: p))
        ∧ (remove_commas num = []
           ∨ exceeds_limit (length (remove_commas num)) = true
           ∨ ∃ title dm,
               details msg = Some (Some title) ∧ title ≠ []
               ∧ re_match date_re title = Some dm
               ∧ valid_date (decimal_value (group dm 3)) (decimal_value (group dm 2))
                   (decimal_value (group dm 1)) = false).
Proof.
  assert (∀ num tok : str, group [num; tok] 1 = num) as Hg1 by done.
  split.
  - intros H. split; [by eapply extract_raise|]. revert H.
    unfold extract. destruct (text msg) as [txt|]; [|done].
    destruct (re_search wordle_re txt) as [gs|] eqn:Hs; [|done].
    destruct current_player as [[|c p]|]; [done| |done].
    destruct (wordle_search_inv _ _ Hs) as (num & tok & -> & Hne & Hnum & Htok).
    intros H. exists txt, num, tok. split_and!; [done|done|by eauto|].
    revert H. rewrite Hg1.
    rewrite py_int_decimal by by apply remove_commas_decimal.
    destruct (decide (remove_commas num = [])); [by left|].
    destruct (exceeds_limit (length (remove_commas num))); [by (right; left)|].
    rewrite bind_Ok_eq.
    destruct (details msg) as [[[|t0 title]|]|]; [done| |done|done].
    destruct (re_match date_re (t0 :: title)) as [dm|] eqn:Hdm; [|done].
    destruct (date_match_numbers _ _ Hdm) as (-> & -> & ->). rewrite !bind_Ok_eq.
    unfold new_datetime. destruct (valid_date _ _ _) eqn:Hv; [done|].
    intros _. right. right. by exists (t0 :: title), dm.
  - intros (-> & txt & num & tok & Htxt & Hs & (c & p & ->) & Hcase).
    unfold extract. rewrite Htxt, Hs, Hg1.
    apply wordle_search_inv in Hs as (num' & tok' & [= <- <-] & Hne & Hnum & Htok).
    rewrite py_int_decimal by by apply remove_commas_decimal.
    destruct (decide (remove_commas num = [])); [done|].
    destruct (exceeds_limit (length (remove_commas num))); [done|].
    destruct Hcase as [?|[?|(title & dm & Hd & Ht & Hdm & Hv)]]; [done..|].
    rewrite bind_Ok_eq, Hd. destruct title as [|t0 title]; [done|]. rewrite Hdm.
    destruct (date_match_numbers _ _ Hdm) as (-> & -> & ->). rewrite !bind_Ok_eq.
    unfold new_datetime. by rewrite Hv.
Qed.

Lemma extract_raises_iff_witness :
  @extract ascii_runtime (Some hugo) comma_only = Raise ValueError.
Proof.
  apply (proj2 (@extract_raises_iff ascii_runtime (Some hugo) comma_only ValueError)).
  split; [done|]. exists (lit "Wordle , 3/6"), (lit ","), (chr "3").
  split_and!; [reflexivity|reflexivity|by eexists _, _|by left].
Defined.

(** ** The buckets of [calculate_statistics], from the records *)

Lemma fold_count_counts (ts : list tally) (ys : year_stats) :
  let ys' := fold_left (λ ys t, count t ys) ts ys in
  total ys' = total ys + Z.of_nat (length ts)
  ∧ wins ys' = wins ys + Z.of_nat (length (wins_in ts))
  ∧ losses ys' = losses ys + Z.of_nat (length ts) - Z.of_nat (length (wins_in ts))
  ∧ total_attempts ys' = total_attempts ys + sumZ (wins_in ts).
Proof.
  revert ys. induction ts as [|t ts IH]; intros ys; simpl; [lia|].
  destruct (IH (count t ys)) as (H1 & H2 & H3 & H4). simpl in *.
  rewrite H1, H2, H3, H4. destruct t; simpl; lia.
Qed.

Lemma occurrences_app (n : Z) (l1 l2 : list Z) :
  occurrences n (l1 ++ l2) = occurrences n l1 + occurrences n l2.
Proof. unfold occurrences. rewrite filter_app, length_app. lia. Qed.

Lemma occurrences_pos (n : Z) (l : list Z) : n ∈ l ↔ 0 < occurrences n l.
Proof.
  unfold occurrences. split.
  - intros H. assert (n ∈ filter (λ m, m = n) l) as Hn by by apply list_elem_of_filter.
    destruct (filter _ l); [by apply elem_of_nil in Hn|]. simpl. lia.
  - intros H. destruct (filter (λ m, m = n) l) as [|m l'] eqn:E; [simpl in H; lia|].
    assert (m ∈ filter (λ m, m = n) l) as Hm by (rewrite E; left).
    by apply list_elem_of_filter in Hm as [-> ?].
Qed.

Lemma occurrences_nonneg (n : Z) (l : list Z) : 0 ≤ occurrences n l.
Proof. unfold occurrences. lia. Qed.

Lemma occurrences_singleton (n m : Z) :
  occurrences n [m] = if decide (m = n) then 1 else 0.
Proof. unfold occurrences. rewrite filter_cons. by case_decide. Qed.

(** The distribution after the tallies [ts], from an empty one. *)
Lemma fold_count_dist (ts : list tally) (n : Z) :
  attempts_dist (fold_left (λ ys t, count t ys) ts new_year_stats) !! n
  = if decide (0 < occurrences n (wins_in ts))
    then Some (occurrences n (wins_in ts)) else None.
Proof.
  induction ts as [|t ts IH] using rev_ind.
  { cbn [fold_left new_year_stats attempts_dist]. by rewrite lookup_empty. }
  rewrite fold_left_app. cbn [fold_left]. unfold wins_in in *. rewrite omap_app.
  destruct t as [|m]; simpl.
  - by rewrite app_nil_r.
  - rewrite occurrences_app, occurrences_singleton.
    pose proof (occurrences_nonneg n
      (omap (λ t, match t with Win n => Some n | Loss => None end) ts)) as Hpos.
    rewrite lookup_insert. destruct (decide (m = n)) as [->|Hne].
    + rewrite IH. rewrite (decide_True (P := 0 < _ + 1)) by lia.
      f_equal. case_decide; simpl; lia.
    + rewrite IH, Z.add_0_r. done.
Qed.

Lemma bucket_set_year_stats (stats : stats_map) player year ys pl yr :
  bucket (set_year_stats stats player year ys) pl yr
  = if decide (player = pl ∧ year = yr) then Some ys else bucket stats pl yr.
Proof.
  unfold bucket. rewrite lookup_set_year_stats.
  destruct (decide (player = pl)) as [->|]; simpl.
  - rewrite lookup_insert. destruct (decide (year = yr)) as [->|].
    + by rewrite decide_True.
    + rewrite decide_False by (by intros [_ ?]). by destruct (stats !! pl).
  - by rewrite decide_False by (by intros [? _]).
Qed.

Lemma get_year_stats_bucket (stats : stats_map) pl yr :
  get_year_stats stats pl yr = default new_year_stats (bucket stats pl yr).
Proof.
  unfold get_year_stats, bucket. destruct (stats !! pl); simpl; [done|].
  by rewrite lookup_empty.
Qed.

Section Buckets.
Context {R : Runtime}.

Lemma wins_in_tallies_of (rs : list wordle_result) :
  wins_in (tallies_of rs) = omap win_value rs.
Proof.
  unfold wins_in, tallies_of, win_value. induction rs as [|r rs IH]; simpl; [done|].
  destruct (tally_of (attempts r)) as [[|n]|e]; simpl; [done| |done]. by f_equal.
Qed.

(** The bucket of a player and a year at the end of the loop. *)
Lemma statistics_loop_bucket results stats stats' pl yr :
  statistics_loop results stats = Ok stats' →
  Forall (λ r, ∃ t, tally_of (attempts r) = Ok t) results
  ∧ (is_Some (bucket stats' pl yr)
     ↔ is_Some (bucket stats pl yr) ∨ results_of results pl yr ≠ [])
  ∧ get_year_stats stats' pl yr
    = fold_left (λ ys t, count t ys) (tallies_of (results_of results pl yr))
        (get_year_stats stats pl yr).
Proof.
  revert stats. induction results as [|r results IH]; intros stats; simpl.
  - intros [= <-]. split_and!; [done| |done]. split; [by left|]. by intros [?|?].
  - intros (stats1 & H1 & H)%bind_Ok. rewrite add_result_tally in H1.
    apply bind_Ok in H1 as (t & Ht & [= <-]).
    destruct (IH _ H) as (Hall & Hex & Hget). split_and!.
    + constructor; [by eexists|done].
    + rewrite Hex, bucket_set_year_stats. unfold results_of in *. rewrite filter_cons.
      destruct (decide (player r = pl ∧ year r = yr)) as [?|?].
      * split; [intros _; by right|intros _; left; by eexists].
      * done.
    + rewrite Hget. rewrite !get_year_stats_bucket, bucket_set_year_stats.
      unfold results_of, tallies_of. rewrite filter_cons.
      destruct (decide (player r = pl ∧ year r = yr)) as [[<- <-]|?]; [|done].
      simpl. rewrite Ht. simpl. by rewrite <-get_year_stats_bucket.
Qed.

End Buckets.

Lemma tallies_of_length {R : Runtime} (rs : list wordle_result) :
  Forall (λ r, ∃ t, tally_of (attempts r) = Ok t) rs →
  length (tallies_of rs) = length rs.
Proof.
  unfold tallies_of. induction 1 as [|r rs' [t Ht] _ IH]; simpl; [done|].
  rewrite Ht. simpl. by f_equal.
Qed.

Lemma wins_losses_split {R : Runtime} (rs : list wordle_result) :
  Forall (λ r, ∃ t, tally_of (attempts r) = Ok t) rs →
  (length (omap win_value rs) + length (filter (λ r, attempts r = lit "X") rs)
   = length rs)%nat.
Proof.
  induction 1 as [|r rs' [t Ht] _ IH]; [done|].
  rewrite filter_cons. cbn [omap list_omap]. unfold win_value at 1. rewrite Ht.
  unfold tally_of in Ht. destruct (decide (attempts r = lit "X")) as [HX|HX].
  - injection Ht as <-. cbn [length]. lia.
  - destruct (py_int (attempts r)); [|done]. injection Ht as <-.
    cbn [length]. lia.
Qed.

(** In what [calculate_statistics] returns, a player and a year have a
    bucket exactly when some record is theirs; its [total] is the number
    of their records, its [wins] the number of those that are not
    failures, its [losses] the rest, its [total_attempts] the sum of the
    attempts of the wins, and its [attempts_dist] gives each number of
    attempts the number of wins that took it, and no key to the others. *)
Theorem statistics_bucket {R : Runtime} results stats pl yr :
  calculate_statistics results = Ok stats →
  (is_Some (bucket stats pl yr) ↔ results_of results pl yr ≠ [])
  ∧ total (get_year_stats stats pl yr) = Z.of_nat (length (results_of results pl yr))
  ∧ wins (get_year_stats stats pl yr)
    = Z.of_nat (length (omap win_value (results_of results pl yr)))
  ∧ losses (get_year_stats stats pl yr)
    = Z.of_nat (length (filter (λ r, attempts r = lit "X") (results_of results pl yr)))
  ∧ total_attempts (get_year_stats stats pl yr)
    = sumZ (omap win_value (results_of results pl yr))
  ∧ ∀ n, attempts_dist (get_year_stats stats pl yr) !! n
         = if decide (n ∈ omap win_value (results_of results pl yr))
           then Some (occurrences n (omap win_value (results_of results pl yr)))
           else None.
Proof.
  intros H. destruct (statistics_loop_bucket results ∅ stats pl yr H) as (Hall & Hex & Hget).
  assert (get_year_stats ∅ pl yr = new_year_stats) as Hnew.
  { unfold get_year_stats. rewrite lookup_empty. simpl. by rewrite lookup_empty. }
  rewrite Hnew in Hget.
  destruct (fold_count_counts (tallies_of (results_of results pl yr)) new_year_stats)
    as (H1 & H2 & H3 & H4).
  assert (Forall (λ r, ∃ t, tally_of (attempts r) = Ok t) (results_of results pl yr)) as HF.
  { unfold results_of. rewrite Forall_forall in Hall. apply Forall_forall.
    intros r [_ Hr]%list_elem_of_filter. by apply Hall. }
  pose proof (tallies_of_length _ HF) as Hlen.
  pose proof (wins_losses_split _ HF) as Hsplit.
  rewrite Hget, wins_in_tallies_of, Hlen in *. split_and!.
  - rewrite Hex. unfold bucket. rewrite lookup_empty. simpl. split; [|by right].
    intros [[? ?]|?]; done.
  - rewrite H1. simpl. lia.
  - rewrite H2. simpl. lia.
  - rewrite H3. simpl. lia.
  - rewrite H4. simpl. lia.
  - intros n. rewrite fold_count_dist, wins_in_tallies_of.
    pose proof (occurrences_pos n (omap win_value (results_of results pl yr))) as Hp.
    repeat case_decide; try done; exfalso; tauto.
Qed.

Lemma statistics_bucket_witness :
  ∃ stats,
    @calculate_statistics ascii_runtime sample_results = Ok stats
    ∧ total (get_year_stats stats hugo 2023)
      = Z.of_nat (length (results_of sample_results hugo 2023))
    ∧ wins (get_year_stats stats hugo 2023)
      = Z.of_nat (length (omap (@win_value ascii_runtime)
                            (results_of sample_results hugo 2023))).
Proof.
  assert (match @calculate_statistics ascii_runtime sample_results with
          | Ok _ => true
          | Raise _ => false
          end = true) as Hok by (vm_compute; reflexivity).
  destruct (@calculate_statistics ascii_runtime sample_results) as [stats|e] eqn:E;
    [|discriminate Hok].
  exists stats. split; [reflexivity|].
  destruct (@statistics_bucket ascii_runtime sample_results stats hugo 2023 E)
    as (_ & Htotal & Hwins & _).
  split; [exact Htotal|exact Hwins].
Defined.

(** ** The two aggregations raise together *)

Section Together.
Context {R : Runtime}.

Lemma attempts_val_raise (a : str) (e : exn) :
  attempts_val a = Raise e ↔ tally_of a = Raise e.
Proof.
  unfold attempts_val, tally_of. case_decide; [done|].
  destruct (py_int a); simpl; [by split|]. split; by intros [= ->].
Qed.

Lemma statistics_loop_raise (results : list wordle_result) (stats : stats_map) (e : exn) :
  statistics_loop results stats = Raise e
  ↔ e = ValueError ∧ Exists (λ r, attempts_val (attempts r) = Raise ValueError) results.
Proof.
  revert stats. induction results as [|r results IH]; intros stats; simpl.
  - split; [done|]. intros [_ H]. by apply Exists_nil in H.
  - rewrite add_result_tally, Exists_cons.
    destruct (tally_of (attempts r)) as [t|e'] eqn:E; simpl.
    + rewrite IH. split; intros [-> H]; (split; [done|]); [by right|].
      destruct H as [H|H]; [|done]. apply attempts_val_raise in H. congruence.
    + pose proof (tally_of_raise _ _ E) as ->. split.
      * intros [= <-]. split; [done|]. left. by apply attempts_val_raise.
      * by intros [-> _].
Qed.

Lemma puzzles_loop_raise (results : list wordle_result) (puzzles : puzzles_map) (e : exn) :
  puzzles_loop results puzzles = Raise e
  ↔ e = ValueError ∧ Exists (λ r, attempts_val (attempts r) = Raise ValueError) results.
Proof.
  revert puzzles. induction results as [|r results IH]; intros puzzles; simpl.
  - split; [done|]. intros [_ H]. by apply Exists_nil in H.
  - rewrite Exists_cons. unfold group_result.
    destruct (attempts_val (attempts r)) as [v|e'] eqn:E; simpl.
    + rewrite IH. split; intros [-> H]; (split; [done|]); [by right|].
      by destruct H as [H|H].
    + apply attempts_val_raise in E. pose proof (tally_of_raise _ _ E) as ->. split.
      * intros [= <-]. split; [done|]. by left.
      * by intros [-> _].
Qed.

End Together.

(** [calculate_statistics] raises exactly when some record has an
    [attempts] that is neither [X] nor readable by [int]; the exception
    is [ValueError], and [calculate_head_to_head] raises it on the same
    lists, whoever the players of the records are. *)
Theorem aggregations_raise_together {R : Runtime} results e :
  (calculate_statistics results = Raise e
   ↔ e = ValueError
     ∧ Exists (λ r, attempts r ≠ lit "X" ∧ py_int (attempts r) = Raise ValueError) results)
  ∧ (calculate_head_to_head results = Raise e ↔ calculate_statistics results = Raise e).
Proof.
  assert (∀ r, attempts_val (attempts r) = Raise ValueError
               ↔ attempts r ≠ lit "X" ∧ py_int (attempts r) = Raise ValueError) as Hval.
  { intros r. unfold attempts_val. case_decide; [|tauto]. split; [done|tauto]. }
  unfold calculate_statistics, calculate_head_to_head. split.
  - rewrite statistics_loop_raise. by setoid_rewrite Hval.
  - rewrite statistics_loop_raise, <-(puzzles_loop_raise results ∅ e).
    destruct (puzzles_loop results ∅); simpl; split; intros ?; by simplify_eq.
Qed.

(** ** What the head-to-head depends on *)

Lemma tallies_lookup (h2h_stats : gmap Z h2h) (yr : Z) (year_puzzles : gmap Z (gmap str Z)) :
  tallies h2h_stats yr year_puzzles →
  h2h_stats !! yr
  = if decide (compared year_puzzles = 0%nat) then None
    else Some {| hugo_wins := Z.of_nat (tallied Lt year_puzzles);
                 sylvain_wins := Z.of_nat (tallied Gt year_puzzles);
                 ties := Z.of_nat (tallied Eq year_puzzles) |}.
Proof.
  intros (H1 & H2 & H3 & _ & H5). case_decide as Hc.
  - by apply H5.
  - unfold year_h2h in *.
    destruct (h2h_stats !! yr) as [h|]; [|exfalso; by apply Hc, H5].
    simpl in *. destruct h. simpl in *. by subst.
Qed.

Section Dependence.
Context {R : Runtime}.

Lemma puzzles_loop_Ok (results : list wordle_result) (puzzles0 : puzzles_map) :
  Forall (λ r, is_Some (value_of (attempts r))) results →
  ∃ puzzles, puzzles_loop results puzzles0 = Ok puzzles.
Proof.
  intros H. destruct (puzzles_loop results puzzles0) as [puzzles|e] eqn:E; [by eexists|].
  apply puzzles_loop_raise in E as [_ E]. apply Exists_exists in E as (r & Hr & E).
  rewrite Forall_forall in H. apply H in Hr as [v Hv].
  unfold value_of in Hv. by rewrite E in Hv.
Qed.

Lemma played_last_attempts (results1 results2 : list wordle_result) (yr : Z) (pl : str) :
  (∀ num, last_attempts results1 yr num pl = last_attempts results2 yr num pl) →
  played results1 yr pl = played results2 yr pl.
Proof.
  intros H. apply set_eq. intros num. by rewrite <-!last_attempts_is_Some, H.
Qed.

(** The content of the entry of a year. *)
Lemma head_to_head_lookup (results : list wordle_result) (h2h_stats : gmap Z h2h) (yr : Z) :
  calculate_head_to_head results = Ok h2h_stats →
  h2h_stats !! yr
  = if decide (size (played_by_both results yr) = 0%nat) then None
    else Some {| hugo_wins := Z.of_nat (size (filter (λ num, duel results yr num = Some Lt)
                                                (played_by_both results yr)));
                 sylvain_wins := Z.of_nat (size (filter (λ num, duel results yr num = Some Gt)
                                                   (played_by_both results yr)));
                 ties := Z.of_nat (size (filter (λ num, duel results yr num = Some Eq)
                                           (played_by_both results yr))) |}.
Proof.
  intros H. destruct (head_to_head_tallied results h2h_stats yr H)
    as (year_puzzles & Ht & Hc & Hb).
  rewrite (tallies_lookup _ _ _ Ht), Hb, !Hc. done.
Qed.

(** Two lists whose last results of the two participants agree, for
    every year and puzzle, have the same head-to-head. *)
Lemma head_to_head_same_last (results1 results2 : list wordle_result)
    (h2h_stats : gmap Z h2h) :
  calculate_head_to_head results1 = Ok h2h_stats →
  Forall (λ r, is_Some (value_of (attempts r))) results2 →
  (∀ yr num pl, pl = hugo ∨ pl = sylvain →
     last_attempts results1 yr num pl = last_attempts results2 yr num pl) →
  calculate_head_to_head results2 = Ok h2h_stats.
Proof.
  intros H1 Hall Hlast.
  destruct (puzzles_loop_Ok results2 ∅ Hall) as [puzzles2 Hloop].
  assert (calculate_head_to_head results2 = Ok (compare_all puzzles2)) as H2
    by (unfold calculate_head_to_head; by rewrite Hloop).
  rewrite H2. f_equal. apply map_eq. intros yr.
  rewrite (head_to_head_lookup _ _ yr H1), (head_to_head_lookup _ _ yr H2).
  assert (played_by_both results1 yr = played_by_both results2 yr) as ->.
  { unfold played_by_both. f_equal; apply played_last_attempts; intros num;
      apply Hlast; auto. }
  assert (∀ num, duel results2 yr num = duel results1 yr num) as Hduel.
  { intros num. unfold duel. by rewrite !Hlast by auto. }
  assert (∀ c, filter (λ num, duel results2 yr num = Some c) (played_by_both results2 yr)
               = filter (λ num, duel results1 yr num = Some c) (played_by_both results2 yr))
    as Hf.
  { intros c. apply set_eq. intros num. by rewrite !elem_of_filter, Hduel. }
  by rewrite !Hf.
Qed.

Lemma head_to_head_values (results : list wordle_result) (h2h_stats : gmap Z h2h) :
  calculate_head_to_head results = Ok h2h_stats →
  Forall (λ r, is_Some (value_of (attempts r))) results.
Proof.
  unfold calculate_head_to_head. intros (puzzles & Hloop & _)%bind_Ok.
  by apply puzzles_loop_entry in Hloop as [? _].
Qed.

End Dependence.

(** The records of anyone but the two participants count for nothing in
    the head-to-head: without them [calculate_head_to_head] returns the
    same map. *)
Theorem head_to_head_other_players {R : Runtime} results h2h_stats :
  calculate_head_to_head results = Ok h2h_stats →
  calculate_head_to_head (filter of_participant results) = Ok h2h_stats.
Proof.
  intros H. apply (head_to_head_same_last results); [done| |].
  - pose proof (head_to_head_values _ _ H) as Hall.
    rewrite Forall_forall in Hall. apply Forall_forall.
    intros r [_ Hr]%list_elem_of_filter. by apply Hall.
  - intros yr num pl Hpl. unfold last_attempts. f_equal. f_equal.
    rewrite list_filter_filter_l; [done|].
    intros r (_ & _ & Hp). unfold of_participant. by rewrite Hp.
Qed.

Lemma head_to_head_other_players_witness :
  @calculate_head_to_head ascii_runtime
    (sample_result "Jane Doe" 798 "1" 2023 8 26 :: sample_results)
  = Ok {[ 2023 := {| hugo_wins := 1; sylvain_wins := 0; ties := 0 |} ]}
  ∧ @calculate_head_to_head ascii_runtime
      (filter of_participant (sample_result "Jane Doe" 798 "1" 2023 8 26 :: sample_results))
    = Ok {[ 2023 := {| hugo_wins := 1; sylvain_wins := 0; ties := 0 |} ]}.
Proof.
  assert (@calculate_head_to_head ascii_runtime
            (sample_result "Jane Doe" 798 "1" 2023 8 26 :: sample_results)
          = Ok {[ 2023 := {| hugo_wins := 1; sylvain_wins := 0; ties := 0 |} ]}) as H
    by (vm_compute; reflexivity).
  split; [exact H|]. exact (@head_to_head_other_players ascii_runtime _ _ H).
Defined.

(** A record that is followed, later in the list, by a record of the
    same player for the same puzzle of the same year counts for nothing
    in the head-to-head: the later one replaces it. *)
Theorem head_to_head_superseded {R : Runtime} results1 r results2 h2h_stats :
  calculate_head_to_head (results1 ++ r :: results2) = Ok h2h_stats →
  Exists (same_key (year r) (puzzle_num r) (player r)) results2 →
  calculate_head_to_head (results1 ++ results2) = Ok h2h_stats.
Proof.
  intros H Hex. apply (head_to_head_same_last (results1 ++ r :: results2)); [done| |].
  - pose proof (head_to_head_values _ _ H) as Hall.
    apply Forall_app in Hall as [H1 H2]. apply Forall_cons in H2 as [_ H2].
    by apply Forall_app.
  - intros yr num pl _. unfold last_attempts. f_equal.
    rewrite !filter_app, filter_cons, !last_app.
    case_decide as Hk; [|done].
    destruct Hk as (<- & <- & <-). rewrite last_cons.
    apply Exists_exists in Hex as (r' & Hr' & Hk).
    assert (r' ∈ filter (same_key (year r) (puzzle_num r) (player r)) results2) as Hin
      by (by apply list_elem_of_filter).
    destruct (last (filter _ results2)) eqn:E; [done|].
    apply last_None in E. rewrite E in Hin. by apply elem_of_nil in Hin.
Qed.

Lemma head_to_head_superseded_witness :
  @calculate_head_to_head ascii_runtime
    ([] ++ sample_result "Hugo Ledoux" 798 "X" 2023 8 26 :: sample_results)
  = Ok {[ 2023 := {| hugo_wins := 1; sylvain_wins := 0; ties := 0 |} ]}
  ∧ @calculate_head_to_head ascii_runtime ([] ++ sample_results)
    = Ok {[ 2023 := {| hugo_wins := 1; sylvain_wins := 0; ties := 0 |} ]}.
Proof.
  assert (@calculate_head_to_head ascii_runtime
            ([] ++ sample_result "Hugo Ledoux" 798 "X" 2023 8 26 :: sample_results)
          = Ok {[ 2023 := {| hugo_wins := 1; sylvain_wins := 0; ties := 0 |} ]}) as H
    by (vm_compute; reflexivity).
  split; [exact H|].
  apply (@head_to_head_superseded ascii_runtime _ _ _ _ H).
  apply Exists_cons_hd. split_and!; reflexivity.
Defined.

(** ** The head-to-head within the statistics *)

Lemma size_list_to_set_le (l : list Z) : (size (list_to_set (C:=gset Z) l) ≤ length l)%nat.
Proof.
  induction l as [|x l IH].
  - rewrite list_to_set_nil, size_empty. done.
  - rewrite list_to_set_cons, size_union_alt, size_singleton. cbn [length].
    assert (list_to_set (C:=gset Z) l ∖ {[x]} ⊆ list_to_set l) as Hs
      by (by intros y [Hy _]%elem_of_difference).
    apply subseteq_size in Hs. lia.
Qed.

Lemma played_results_of (results : list wordle_result) (yr : Z) (pl : str) :
  (size (played results yr pl) ≤ length (results_of results pl yr))%nat
  ∧ (played results yr pl ≠ ∅ → results_of results pl yr ≠ []).
Proof.
  unfold played, results_of.
  rewrite (list_filter_iff (λ r, year r = yr ∧ player r = pl)
             (λ r, player r = pl ∧ year r = yr)) by (intros r; tauto).
  split.
  - etrans; [apply size_list_to_set_le|]. by rewrite length_fmap.
  - intros Hne E. rewrite E in Hne. by apply Hne.
Qed.

Section Within.
Context {R : Runtime}.

(** The bucket of a player and a year in what [calculate_statistics]
    returns: the tallies of their records, counted from the empty bucket. *)
Lemma calculate_statistics_get results stats pl yr :
  calculate_statistics results = Ok stats →
  (is_Some (bucket stats pl yr) ↔ results_of results pl yr ≠ [])
  ∧ length (tallies_of (results_of results pl yr)) = length (results_of results pl yr)
  ∧ get_year_stats stats pl yr
    = fold_left (λ ys t, count t ys) (tallies_of (results_of results pl yr)) new_year_stats.
Proof.
  intros H. destruct (statistics_loop_bucket results ∅ stats pl yr H) as (Hall & Hex & Hget).
  split_and!.
  - rewrite Hex. unfold bucket. rewrite lookup_empty. simpl. split; [|by right].
    intros [[? ?]|?]; done.
  - apply tallies_of_length. unfold results_of. rewrite Forall_forall in Hall.
    apply Forall_forall. intros r [_ Hr]%list_elem_of_filter. by apply Hall.
  - rewrite Hget. reflexivity.
Qed.

Lemma calculate_statistics_total results stats pl yr :
  calculate_statistics results = Ok stats →
  total (get_year_stats stats pl yr) = Z.of_nat (length (results_of results pl yr)).
Proof.
  intros (_ & Hlen & ->)%(calculate_statistics_get _ _ pl yr).
  destruct (fold_count_counts (tallies_of (results_of results pl yr)) new_year_stats)
    as (-> & _). rewrite Hlen. simpl. lia.
Qed.

End Within.

(** The head-to-head of a year never counts more puzzles than either
    participant has records that year in the statistics, and a year it
    has an entry for is a year both participants have a bucket for. *)
Theorem head_to_head_within_statistics {R : Runtime} results stats h2h_stats yr :
  calculate_statistics results = Ok stats →
  calculate_head_to_head results = Ok h2h_stats →
  h2h_total (year_h2h h2h_stats yr) ≤ total (get_year_stats stats hugo yr)
  ∧ h2h_total (year_h2h h2h_stats yr) ≤ total (get_year_stats stats sylvain yr)
  ∧ (is_Some (h2h_stats !! yr) →
     is_Some (bucket stats hugo yr) ∧ is_Some (bucket stats sylvain yr)).
Proof.
  intros Hs Hh.
  destruct (head_to_head_tallied results h2h_stats yr Hh)
    as (year_puzzles & (_ & _ & _ & H4 & H5) & _ & Hc).
  unfold h2h_total. rewrite H4, Hc, !(calculate_statistics_total results stats) by done.
  destruct (played_results_of results yr hugo) as [Hh1 Hh2].
  destruct (played_results_of results yr sylvain) as [Hs1 Hs2].
  pose proof (subseteq_size (played_by_both results yr) (played results yr hugo)
                (intersection_subseteq_l _ _)).
  pose proof (subseteq_size (played_by_both results yr) (played results yr sylvain)
                (intersection_subseteq_r _ _)).
  split_and!; [lia|lia|].
  intros Hsome.
  assert (played_by_both results yr ≠ ∅) as Hne.
  { intros E. rewrite E, size_empty in Hc. apply H5 in Hc. rewrite Hc in Hsome.
    by destruct Hsome. }
  destruct (calculate_statistics_get results stats hugo yr Hs) as (-> & _).
  destruct (calculate_statistics_get results stats sylvain yr Hs) as (-> & _).
  split; [apply Hh2|apply Hs2]; intros E; apply Hne; unfold played_by_both; rewrite E.
  - apply intersection_empty_l_L.
  - apply intersection_empty_r_L.
Qed.

Lemma head_to_head_within_statistics_witness :
  ∃ stats h2h_stats,
    @calculate_statistics ascii_runtime sample_results = Ok stats
    ∧ @calculate_head_to_head ascii_runtime sample_results = Ok h2h_stats
    ∧ h2h_total (year_h2h h2h_stats 2023) = 1
    ∧ h2h_total (year_h2h h2h_stats 2023) ≤ total (get_year_stats stats hugo 2023).
Proof.
  assert (match @calculate_statistics ascii_runtime sample_results with
          | Ok _ => true
          | Raise _ => false
          end = true) as Hok by (vm_compute; reflexivity).
  destruct (@calculate_statistics ascii_runtime sample_results) as [stats|e] eqn:E;
    [|discriminate Hok].
  assert (@calculate_head_to_head ascii_runtime sample_results
          = Ok {[ 2023 := {| hugo_wins := 1; sylvain_wins := 0; ties := 0 |} ]}) as H
    by (vm_compute; reflexivity).
  eexists stats, _. split; [reflexivity|]. split; [exact H|]. split; [reflexivity|].
  exact (proj1 (@head_to_head_within_statistics ascii_runtime _ _ _ 2023 E H)).
Defined.

(** ** The order of the report *)

Lemma mapM_elem {A B : Type} (f : A → result B) (l : list A) (ys : list B) (y : B) :
  mapM f l = Ok ys → y ∈ ys → ∃ x, x ∈ l ∧ f x = Ok y.
Proof.
  revert ys. induction l as [|x l IH]; intros ys; simpl.
  - intros [= <-] Hy. by apply elem_of_nil in Hy.
  - intros (y' & Hy' & (ys' & Hys & [= <-])%bind_Ok)%bind_Ok [->|Hy]%elem_of_cons.
    + exists x. split; [left|done].
    + destruct (IH _ Hys Hy) as (x' & ? & ?). exists x'. split; [by right|done].
Qed.

Lemma mapM_fmap {A B : Type} (f : A → result B) (g : B → A) (l : list A) (ys : list B) :
  (∀ x y, f x = Ok y → g y = x) → mapM f l = Ok ys → g <$> ys = l.
Proof.
  intros Hg. revert ys. induction l as [|x l IH]; intros ys; simpl.
  - by intros [= <-].
  - intros (y' & Hy' & (ys' & Hys & [= <-])%bind_Ok)%bind_Ok. simpl.
    f_equal; [by apply Hg|by apply IH].
Qed.

Lemma str_leb_total (a b : str) : str_leb a b = true ∨ str_leb b a = true.
Proof.
  revert b. induction a as [|x a IH]; intros [|y b]; simpl; auto.
  destruct (N.ltb_spec x y), (N.ltb_spec y x); auto.
Qed.

Lemma str_leb_trans (a b c : str) :
  str_leb a b = true → str_leb b c = true → str_leb a c = true.
Proof.
  revert b c. induction a as [|x a IH]; intros [|y b] [|z c]; simpl; try done.
  destruct (N.ltb_spec x y), (N.ltb_spec y x), (N.ltb_spec y z), (N.ltb_spec z y),
           (N.ltb_spec x z), (N.ltb_spec z x); try done; try lia.
  apply IH.
Qed.

Lemma str_le_total : Total str_le.
Proof. intros a b. apply str_leb_total. Qed.

Lemma str_le_trans : Transitive str_le.
Proof. intros a b c. apply str_leb_trans. Qed.

Lemma sorted_players_sorted {V : Type} (d : gmap str V) :
  StronglySorted str_le (sorted_players d) ∧ NoDup (sorted_players d).
Proof.
  unfold sorted_players. split.
  - apply (@StronglySorted_merge_sort _ str_le _ str_le_trans str_le_total).
  - rewrite merge_sort_Permutation. apply NoDup_fst_map_to_list.
Qed.

Lemma StronglySorted_le_lt (l : list Z) :
  StronglySorted Z.le l → NoDup l → StronglySorted Z.lt l.
Proof.
  induction 1 as [|x l Hl IH Hx]; intros Hnd; [constructor|].
  apply NoDup_cons in Hnd as [Hin Hnd]. constructor; [by apply IH|].
  rewrite Forall_forall in Hx. apply Forall_forall. intros y Hy.
  specialize (Hx y Hy). assert (x ≠ y) by (by intros ->). lia.
Qed.

Lemma sorted_years_sorted {V : Type} (d : gmap Z V) : StronglySorted Z.lt (sorted_years d).
Proof.
  apply StronglySorted_le_lt.
  - apply StronglySorted_merge_sort; apply _.
  - unfold sorted_years. rewrite merge_sort_Permutation. apply NoDup_fst_map_to_list.
Qed.

Lemma summarize_fields (yr : Z) (ys : year_stats) (s : summary) :
  summarize yr ys = Ok s →
  s_year s = yr ∧ s_total s = total ys ∧ s_wins s = wins ys ∧ s_losses s = losses ys
  ∧ s_distribution s
    = filter (λ ic, 0 < ic.2) ((λ i, (i, default 0 (attempts_dist ys !! i))) <$> seqZ 1 6).
Proof.
  unfold summarize.
  intros (win_rate & _ & (avg_attempts & _ & [= <-])%bind_Ok)%bind_Ok. done.
Qed.

(** What [print_summary] prints, by player and by year. *)
Lemma print_summary_inv (stats : stats_map) (out : list (str * list summary)) :
  print_summary stats = Ok out →
  out.*1 = sorted_players stats
  ∧ ∀ player rows, (player, rows) ∈ out →
      ∃ years, stats !! player = Some years
               ∧ s_year <$> rows = sorted_years years
               ∧ ∀ row, row ∈ rows →
                   summarize (s_year row) (get_year_stats stats player (s_year row)) = Ok row.
Proof.
  unfold print_summary. intros H. split.
  - eapply mapM_fmap; [|exact H]. simpl. by intros p [p' rows] (? & _ & [= <- _])%bind_Ok.
  - intros player rows Hin.
    destruct (mapM_elem _ _ _ _ H Hin) as (p & Hp & (rows' & Hrows & [= <- <-])%bind_Ok).
    apply elem_of_sorted_players in Hp as [years Hyears]. exists years.
    rewrite Hyears in Hrows. simpl in Hrows. split_and!; [done| |].
    + eapply mapM_fmap; [|exact Hrows]. simpl.
      by intros y row [? _]%summarize_fields.
    + intros row Hrow. destruct (mapM_elem _ _ _ _ Hrows Hrow) as (y & _ & Hs).
      pose proof (summarize_fields _ _ _ Hs) as [-> _].
      unfold get_year_stats. by rewrite Hyears.
Qed.

(** The report lists the players in increasing order of their names,
    compared code point by code point, each player of [stats] once; and
    under a player the years in increasing order, each year the player
    has a bucket for once. *)
Theorem print_summary_order stats out :
  print_summary stats = Ok out →
  StronglySorted str_le out.*1 ∧ NoDup out.*1
  ∧ (∀ player, player ∈ out.*1 ↔ is_Some (stats !! player))
  ∧ ∀ player rows, (player, rows) ∈ out →
      StronglySorted Z.lt (s_year <$> rows)
      ∧ ∀ yr, yr ∈ s_year <$> rows ↔ is_Some (bucket stats player yr).
Proof.
  intros [Hp Hrows]%print_summary_inv. rewrite Hp.
  destruct (sorted_players_sorted stats) as [Hs Hnd]. split_and!; [done|done| |].
  - intros player. apply elem_of_sorted_players.
  - intros player rows (years & Hyears & -> & _)%Hrows. split.
    + apply sorted_years_sorted.
    + intros yr. rewrite elem_of_sorted_years. unfold bucket. by rewrite Hyears.
Qed.

Lemma print_summary_order_witness :
  ∃ out,
    print_summary {[ sylvain := {[ 2024 := new_year_stats ]};
                     hugo := {[ 2024 := new_year_stats; 2023 := new_year_stats ]} ]} = Ok out
    ∧ StronglySorted str_le out.*1.
Proof.
  assert (match print_summary
                  {[ sylvain := {[ 2024 := new_year_stats ]};
                     hugo := {[ 2024 := new_year_stats; 2023 := new_year_stats ]} ]} with
          | Ok _ => true
          | Raise _ => false
          end = true) as Hok by (vm_compute; reflexivity).
  destruct (print_summary _) as [out|e] eqn:E; [|discriminate Hok].
  exists out. split; [reflexivity|]. exact (proj1 (print_summary_order _ _ E)).
Defined.

(** ** The distribution line of the report *)

Lemma sumZ_app (l1 l2 : list Z) : sumZ (l1 ++ l2) = sumZ l1 + sumZ l2.
Proof. unfold sumZ. induction l1 as [|x l1 IH]; simpl; lia. Qed.

Lemma sumZ_filter_pos (l : list (Z * Z)) :
  Forall (λ ic, 0 ≤ ic.2) l → sumZ (filter (λ ic, 0 < ic.2) l).*2 = sumZ l.*2.
Proof.
  unfold sumZ. induction 1 as [|[i c] l Hc _ IH]; [done|]. rewrite filter_cons.
  cbn [snd] in *. destruct (decide (0 < c)); cbn [fmap list_fmap foldr snd]; lia.
Qed.

Lemma occurrences_cons (n m : Z) (l : list Z) :
  occurrences n (m :: l) = (if decide (m = n) then 1 else 0) + occurrences n l.
Proof. unfold occurrences. rewrite filter_cons. case_decide; simpl; lia. Qed.

(** The wins in 1 to 6 attempts, counted number by number. *)
Lemma occurrences_displayed (ws : list Z) :
  sumZ ((λ i, occurrences i ws) <$> seqZ 1 6) = Z.of_nat (length (displayed ws)).
Proof.
  unfold displayed. induction ws as [|n ws IH]; [done|].
  rewrite filter_cons. change (seqZ 1 6) with [1; 2; 3; 4; 5; 6] in *.
  cbn [fmap list_fmap sumZ foldr] in *. rewrite !occurrences_cons.
  repeat case_decide; cbn [length]; lia.
Qed.

Section Distribution.
Context {R : Runtime}.

Lemma calculate_statistics_dist results stats pl yr n :
  calculate_statistics results = Ok stats →
  default 0 (attempts_dist (get_year_stats stats pl yr) !! n)
  = occurrences n (omap win_value (results_of results pl yr)).
Proof.
  intros (_ & _ & ->)%(calculate_statistics_get _ _ pl yr).
  rewrite fold_count_dist, wins_in_tallies_of.
  pose proof (occurrences_nonneg n (omap win_value (results_of results pl yr))).
  case_decide; simpl; lia.
Qed.

Lemma calculate_statistics_wins results stats pl yr :
  calculate_statistics results = Ok stats →
  wins (get_year_stats stats pl yr)
  = Z.of_nat (length (omap win_value (results_of results pl yr))).
Proof.
  intros (_ & _ & ->)%(calculate_statistics_get _ _ pl yr).
  destruct (fold_count_counts (tallies_of (results_of results pl yr)) new_year_stats)
    as (_ & -> & _). rewrite wins_in_tallies_of. simpl. lia.
Qed.

End Distribution.

(** In the report of the statistics of [results], the distribution line
    of a player and a year shows, in increasing order, the numbers of
    attempts from 1 to 6 that some win of theirs took, each with the
    number of those wins; the numbers shown add up to the wins in 1 to 6
    attempts, so a win in any other number of attempts is counted in the
    wins and missing from the line. *)
Theorem summary_distribution {R : Runtime} results stats out player rows row :
  calculate_statistics results = Ok stats →
  print_summary stats = Ok out →
  (player, rows) ∈ out → row ∈ rows →
  s_wins row = Z.of_nat (length (omap win_value (results_of results player (s_year row))))
  ∧ s_distribution row
    = filter (λ ic, 0 < ic.2)
        ((λ i, (i, occurrences i (omap win_value (results_of results player (s_year row)))))
           <$> seqZ 1 6)
  ∧ sumZ (s_distribution row).*2
    = Z.of_nat (length (displayed (omap win_value (results_of results player (s_year row))))).
Proof.
  intros Hstats [_ Hout]%print_summary_inv Hrows Hrow.
  destruct (Hout _ _ Hrows) as (years & _ & _ & Hs).
  apply Hs, summarize_fields in Hrow as (_ & _ & Hw & _ & Hd).
  assert (s_distribution row
          = filter (λ ic, 0 < ic.2)
              ((λ i, (i, occurrences i
                           (omap win_value (results_of results player (s_year row)))))
                 <$> seqZ 1 6)) as Hd'.
  { rewrite Hd. f_equal. apply list_fmap_ext. intros _ i _. f_equal.
    by apply calculate_statistics_dist. }
  split_and!; [by rewrite Hw, (calculate_statistics_wins results)|done|].
  rewrite Hd', sumZ_filter_pos.
  - rewrite <-list_fmap_compose. apply occurrences_displayed.
  - apply Forall_fmap, Forall_forall. intros i _. apply occurrences_nonneg.
Qed.

Lemma summary_distribution_witness :
  ∃ stats out rows row,
    @calculate_statistics ascii_runtime two_wins = Ok stats
    ∧ print_summary stats = Ok out ∧ (hugo, rows) ∈ out ∧ row ∈ rows
    ∧ s_wins row
      = Z.of_nat (length (omap (@win_value ascii_runtime)
                            (results_of two_wins hugo (s_year row))))
    ∧ sumZ (s_distribution row).*2
      = Z.of_nat (length (displayed (omap (@win_value ascii_runtime)
                                       (results_of two_wins hugo (s_year row))))).
Proof.
  assert (match @calculate_statistics ascii_runtime two_wins with
          | Ok stats =>
              match print_summary stats with
              | Ok ((player, _ :: _) :: _) => bool_decide (player = hugo)
              | _ => false
              end
          | Raise _ => false
          end = true) as Hok by (vm_compute; reflexivity).
  destruct (@calculate_statistics ascii_runtime two_wins) as [stats|e] eqn:Hstats;
    [|discriminate Hok].
  destruct (print_summary stats) as [[|[player [|row rows]] out]|e] eqn:Hout;
    try discriminate Hok.
  apply bool_decide_eq_true in Hok as ->.
  exists stats, ((hugo, row :: rows) :: out), (row :: rows), row.
  split; [reflexivity|]. split; [exact Hout|].
  split; [apply list_elem_of_here|]. split; [apply list_elem_of_here|].
  destruct (@summary_distribution ascii_runtime two_wins stats _ hugo (row :: rows) row
              Hstats Hout (list_elem_of_here _ _) (list_elem_of_here _ _))
    as (Hw & _ & Hd).
  split; [exact Hw|exact Hd].
Defined.

(** ** The divisions of [plot_statistics] *)

Lemma int_to_float_no_zero_division (a : Z) : int_to_float a ≠ Raise ZeroDivisionError.
Proof. unfold int_to_float. by case_match. Qed.

Lemma true_div_nonzero (a b : Z) : b ≠ 0 → true_div a b ≠ Raise ZeroDivisionError.
Proof. intros Hb H. by apply true_div_zero in H. Qed.

Lemma bind_not_raising {A B : Type} (m : result A) (f : A → result B) (e : exn) :
  m ≠ Raise e → (∀ a, f a ≠ Raise e) → m ≫= f ≠ Raise e.
Proof. intros Hm Hf. destruct m as [a|e']; [apply Hf|]. intros [= ->]. by apply Hm. Qed.

Lemma year_labels_no_zero_division (h s t : Z) :
  year_labels h s t ≠ Raise ZeroDivisionError.
Proof.
  unfold year_labels. destruct (Z.ltb_spec 0 (h + t + s)) as [Htotal|]; [|done].
  assert (h + t + s ≠ 0) as Hne by lia.
  repeat (apply bind_not_raising; [|intros ?]); [| | |done].
  all: case_match; [|done].
  all: repeat (apply bind_not_raising; [|intros ?]); try done.
  all: first [by apply true_div_nonzero|apply int_to_float_no_zero_division].
Qed.

(** Whatever the two aggregates, [plot_statistics] raises no
    [ZeroDivisionError]: the average of the second chart is guarded by
    [wins > 0] and the percentages of the fourth by [total > 0]. *)
Theorem plot_statistics_no_zero_division stats h2h_stats :
  plot_statistics stats h2h_stats ≠ Raise ZeroDivisionError.
Proof.
  unfold plot_statistics.
  destruct (mapM _ (sorted_players stats)) as [chart2|e] eqn:E2; simpl.
  - destruct (mapM _ (seq 0 _)) as [labels|e] eqn:E4; simpl; [done|].
    intros [= ->]. revert E4. apply mapM_not_raising. intros i.
    apply year_labels_no_zero_division.
  - intros [= ->]. revert E2. apply mapM_not_raising. intros player.
    unfold avg_attempts.
    destruct (mapM _ (all_years stats)) as [avg|e] eqn:E; simpl; [done|].
    intros [= ->]. revert E. apply mapM_not_raising. intros year.
    destruct (default ∅ (stats !! player) !! year) as [ys|]; [|done].
    destruct (Z.ltb_spec 0 (wins ys)); [|done]. apply true_div_nonzero. lia.
Qed.

(** ** The years of the charts *)

Lemma all_years_elem (stats : stats_map) (yr : Z) :
  yr ∈ all_years stats ↔ ∃ player, is_Some (bucket stats player yr).
Proof.
  unfold all_years. rewrite merge_sort_Permutation, elem_of_elements. unfold bucket.
  apply (map_fold_weak_ind (λ (acc : gset Z) (m : stats_map),
           yr ∈ acc ↔ ∃ player, is_Some (m !! player ≫= λ years, years !! yr))).
  - split; [by intros ?%elem_of_empty|]. intros [player H]. rewrite lookup_empty in H.
    by destruct H.
  - intros p years m acc Hp IH. rewrite elem_of_union, elem_of_dom, IH. split.
    + intros [H|[player H]].
      * exists p. by rewrite lookup_insert_eq.
      * exists player. rewrite lookup_insert_ne; [done|]. intros <-. rewrite Hp in H.
        by destruct H.
    + intros [player H]. destruct (decide (p = player)) as [<-|Hne].
      * left. by rewrite lookup_insert_eq in H.
      * right. exists player. by rewrite lookup_insert_ne in H.
Qed.

Lemma all_years_sorted (stats : stats_map) :
  StronglySorted Z.lt (all_years stats) ∧ NoDup (all_years stats).
Proof.
  assert (NoDup (all_years stats)) as Hnd.
  { unfold all_years. rewrite merge_sort_Permutation. apply NoDup_elements. }
  split; [|done]. apply StronglySorted_le_lt; [|done].
  apply StronglySorted_merge_sort; apply _.
Qed.

Lemma h2h_series_year_h2h (field : h2h → Z) (h2h_stats : gmap Z h2h) (years : list Z) :
  field new_h2h = 0 →
  h2h_series field h2h_stats years = (λ yr, field (year_h2h h2h_stats yr)) <$> years.
Proof.
  intros Hf. unfold h2h_series, year_h2h. apply list_fmap_ext. intros _ yr _.
  by destruct (h2h_stats !! yr).
Qed.

Lemma plot_statistics_fields (stats : stats_map) (h2h_stats : gmap Z h2h) (data : plot_data) :
  plot_statistics stats h2h_stats = Ok data →
  p_players data = sorted_players stats
  ∧ p_all_years data = all_years stats
  ∧ p_dist data
    = (λ player, (player, distribution (default ∅ (stats !! player)) (all_years stats)))
        <$> sorted_players stats
  ∧ p_hugo_wins data = h2h_series hugo_wins h2h_stats (all_years stats)
  ∧ p_sylvain_wins data = h2h_series sylvain_wins h2h_stats (all_years stats)
  ∧ p_ties data = h2h_series ties h2h_stats (all_years stats).
Proof.
  unfold plot_statistics.
  intros (chart2 & _ & (labels & _ & [= <-])%bind_Ok)%bind_Ok. done.
Qed.

Section Years.
Context {R : Runtime}.

Lemma head_to_head_year_played (results : list wordle_result) (h2h_stats : gmap Z h2h)
    (yr : Z) :
  calculate_head_to_head results = Ok h2h_stats →
  is_Some (h2h_stats !! yr) → results_of results hugo yr ≠ [].
Proof.
  intros H. rewrite (head_to_head_lookup _ _ yr H). case_decide as Hsize.
  { by intros [? ?]. }
  intros _. apply played_results_of. intros E. apply Hsize.
  unfold played_by_both. by rewrite E, intersection_empty_l_L, size_empty.
Qed.

Lemma results_of_elem (results : list wordle_result) (yr : Z) :
  (∃ pl, results_of results pl yr ≠ []) ↔ ∃ r, r ∈ results ∧ year r = yr.
Proof.
  unfold results_of. split.
  - intros [pl Hne]. destruct (filter _ results) as [|r l] eqn:E; [done|].
    assert (r ∈ filter (λ r, player r = pl ∧ year r = yr) results) as Hr
      by (rewrite E; left).
    apply list_elem_of_filter in Hr as [[_ ?] ?]. by exists r.
  - intros (r & Hr & Hy). exists (player r). intros E.
    assert (r ∈ filter (λ r', player r' = player r ∧ year r' = yr) results) as Hr'
      by (by apply list_elem_of_filter).
    rewrite E in Hr'. by apply elem_of_nil in Hr'.
Qed.

End Years.

(** For the aggregates of one list of records, the years of the charts
    are the years of the records, in increasing order and each once;
    every year of the head-to-head is among them, and the three series
    of the fourth chart are its tallies year by year: no part of the
    head-to-head is missing from the chart. *)
Theorem plot_years {R : Runtime} results stats h2h_stats data :
  calculate_statistics results = Ok stats →
  calculate_head_to_head results = Ok h2h_stats →
  plot_statistics stats h2h_stats = Ok data →
  StronglySorted Z.lt (p_all_years data)
  ∧ (∀ yr, yr ∈ p_all_years data ↔ ∃ r, r ∈ results ∧ year r = yr)
  ∧ (∀ yr, is_Some (h2h_stats !! yr) → yr ∈ p_all_years data)
  ∧ p_hugo_wins data = (λ yr, hugo_wins (year_h2h h2h_stats yr)) <$> p_all_years data
  ∧ p_sylvain_wins data = (λ yr, sylvain_wins (year_h2h h2h_stats yr)) <$> p_all_years data
  ∧ p_ties data = (λ yr, ties (year_h2h h2h_stats yr)) <$> p_all_years data.
Proof.
  intros Hs Hh (_ & -> & _ & -> & -> & ->)%plot_statistics_fields.
  assert (∀ yr, yr ∈ all_years stats ↔ ∃ pl, results_of results pl yr ≠ []) as Hyears.
  { intros yr. rewrite all_years_elem. apply exist_proper. intros pl.
    by apply calculate_statistics_get. }
  split_and!.
  - apply all_years_sorted.
  - intros yr. by rewrite Hyears, results_of_elem.
  - intros yr Hyr. apply Hyears. exists hugo. by eapply head_to_head_year_played.
  - by apply h2h_series_year_h2h.
  - by apply h2h_series_year_h2h.
  - by apply h2h_series_year_h2h.
Qed.

Lemma plot_years_witness :
  ∃ stats h2h_stats data,
    @calculate_statistics ascii_runtime sample_results = Ok stats
    ∧ @calculate_head_to_head ascii_runtime sample_results = Ok h2h_stats
    ∧ plot_statistics stats h2h_stats = Ok data
    ∧ StronglySorted Z.lt (p_all_years data)
    ∧ (2024 ∈ p_all_years data ↔ ∃ r, r ∈ sample_results ∧ year r = 2024).
Proof.
  assert (@calculate_head_to_head ascii_runtime sample_results
          = Ok {[ 2023 := {| hugo_wins := 1; sylvain_wins := 0; ties := 0 |} ]}) as Hh
    by (vm_compute; reflexivity).
  assert (match @calculate_statistics ascii_runtime sample_results with
          | Ok stats =>
              match plot_statistics stats
                      {[ 2023 := {| hugo_wins := 1; sylvain_wins := 0; ties := 0 |} ]} with
              | Ok _ => true
              | Raise _ => false
              end
          | Raise _ => false
          end = true) as Hok by (vm_compute; reflexivity).
  destruct (@calculate_statistics ascii_runtime sample_results) as [stats|e] eqn:Hs;
    [|discriminate Hok].
  destruct (plot_statistics stats _) as [data|e] eqn:Hd; [|discriminate Hok].
  eexists stats, _, data. split; [reflexivity|]. split; [exact Hh|]. split; [exact Hd|].
  destruct (@plot_years ascii_runtime sample_results stats _ data Hs Hh Hd)
    as (Hsorted & Hyears & _).
  split; [exact Hsorted|exact (Hyears 2024)].
Defined.

(** ** The bars of the distribution chart *)

Lemma sumZ_cons (x : Z) (l : list Z) : sumZ (x :: l) = x + sumZ l.
Proof. done. Qed.

Lemma sumZ_cons_skip (g : Z → Z) (c y : Z) (l : list Z) :
  y ∉ l → sumZ ((λ yr, (if decide (yr = y) then c else 0) + g yr) <$> l) = sumZ (g <$> l).
Proof.
  induction l as [|z l IH]; intros Hz; [done|].
  apply not_elem_of_cons in Hz as [Hne Hz].
  rewrite !fmap_cons, !sumZ_cons, IH by done.
  rewrite decide_False by (intros ->; done). lia.
Qed.

Lemma sumZ_cons_pick (g : Z → Z) (c y : Z) (l : list Z) :
  NoDup l → y ∈ l →
  sumZ ((λ yr, (if decide (yr = y) then c else 0) + g yr) <$> l) = c + sumZ (g <$> l).
Proof.
  induction 1 as [|x l Hx Hnd IH]; intros Hy.
  { by apply elem_of_nil in Hy. }
  rewrite !fmap_cons, !sumZ_cons. apply elem_of_cons in Hy as [->|Hy].
  - rewrite decide_True by done. rewrite sumZ_cons_skip by done. lia.
  - rewrite decide_False by (intros ->; done). rewrite IH by done. lia.
Qed.

Lemma sumZ_zero {A : Type} (l : list A) : sumZ ((λ _, 0) <$> l) = 0.
Proof. induction l as [|x l IH]; [done|]. by rewrite fmap_cons, sumZ_cons, IH. Qed.

(** A quantity that adds up over the results of a player adds up over
    the years: its values for the years of [years] sum to its value for
    all the results of the player, when [years] has each year once and
    has every year of the player. *)
Lemma sum_over_years (f : list wordle_result → Z) (results : list wordle_result)
    (pl : str) (years : list Z) :
  f [] = 0 → (∀ r l, f (r :: l) = f [r] + f l) →
  NoDup years → (∀ r, r ∈ results → player r = pl → year r ∈ years) →
  sumZ ((λ yr, f (results_of results pl yr)) <$> years) = f (results_by results pl).
Proof.
  intros Hnil Hcons Hnd. unfold results_of, results_by.
  induction results as [|r results IH]; intros Hin.
  - rewrite filter_nil, Hnil. etrans; [|apply (sumZ_zero years)].
    f_equal. apply list_fmap_ext. intros _ yr _. by rewrite filter_nil.
  - rewrite filter_cons. destruct (decide (player r = pl)) as [Hp|Hp].
    + rewrite Hcons, <-IH by (intros r' ?; apply Hin; by right).
      rewrite <-(sumZ_cons_pick _ (f [r]) (year r)); [|done|apply Hin; [left|done]].
      f_equal. apply list_fmap_ext. intros _ yr _. rewrite filter_cons.
      destruct (decide (yr = year r)) as [->|Hne].
      * rewrite decide_True by done. apply Hcons.
      * rewrite decide_False by (intros [_ ?]; by apply Hne). lia.
    + rewrite <-IH by (intros r' ?; apply Hin; by right).
      f_equal. apply list_fmap_ext. intros _ yr _. rewrite filter_cons.
      by rewrite decide_False by (by intros [? _]).
Qed.

(** The seven bars after one more year. *)
Lemma add_year_bars (ys : year_stats) (a1 a2 a3 a4 a5 a6 a7 : Z) :
  add_at
    (fold_left (λ dist attempt_num,
                  add_at dist (Z.to_nat (attempt_num - 1))
                    (default 0 (attempts_dist ys !! attempt_num)))
               (seqZ 1 6) [a1; a2; a3; a4; a5; a6; a7])
    6 (losses ys)
  = [a1 + default 0 (attempts_dist ys !! 1); a2 + default 0 (attempts_dist ys !! 2);
     a3 + default 0 (attempts_dist ys !! 3); a4 + default 0 (attempts_dist ys !! 4);
     a5 + default 0 (attempts_dist ys !! 5); a6 + default 0 (attempts_dist ys !! 6);
     a7 + losses ys].
Proof. reflexivity. Qed.

(** The seven bars, as seven sums over the years. *)
Lemma distribution_sums (player_stats : gmap Z year_stats) (years : list Z) :
  distribution player_stats years
  = ((λ n, sumZ ((λ yr, default 0 (attempts_dist
                                     (default new_year_stats (player_stats !! yr)) !! n))
                   <$> years)) <$> seqZ 1 6)
    ++ [sumZ ((λ yr, losses (default new_year_stats (player_stats !! yr))) <$> years)].
Proof.
  unfold distribution.
  pose (S := λ (years : list Z) (n : Z),
          sumZ ((λ yr, default 0 (attempts_dist
                                    (default new_year_stats (player_stats !! yr)) !! n))
                  <$> years)).
  pose (L := λ (years : list Z),
          sumZ ((λ yr, losses (default new_year_stats (player_stats !! yr))) <$> years)).
  assert (∀ a1 a2 a3 a4 a5 a6 a7,
    fold_left (λ dist year,
                 match player_stats !! year with
                 | Some year_stats =>
                     let dist :=
                       fold_left (λ dist attempt_num,
                                    add_at dist (Z.to_nat (attempt_num - 1))
                                      (default 0 (attempts_dist year_stats !! attempt_num)))
                                 (seqZ 1 6) dist in
                     add_at dist 6 (losses year_stats)
                 | None => dist
                 end) years [a1; a2; a3; a4; a5; a6; a7]
    = [a1 + S years 1; a2 + S years 2; a3 + S years 3; a4 + S years 4;
       a5 + S years 5; a6 + S years 6; a7 + L years]) as H.
  { induction years as [|yr years IH]; intros a1 a2 a3 a4 a5 a6 a7.
    - unfold S, L. cbn [fold_left fmap list_fmap]. change (sumZ []) with 0.
      by rewrite !Z.add_0_r.
    - assert (∀ n, S (yr :: years) n
                   = default 0 (attempts_dist
                                  (default new_year_stats (player_stats !! yr)) !! n)
                     + S years n) as HS by done.
      assert (L (yr :: years)
              = losses (default new_year_stats (player_stats !! yr)) + L years) as HL
        by done.
      cbn [fold_left]. rewrite !HS, HL.
      destruct (player_stats !! yr) as [ys|]; cbn [default].
      + cbv zeta. rewrite add_year_bars, IH. by rewrite !Z.add_assoc.
      + rewrite IH. cbn [new_year_stats attempts_dist losses]. rewrite !lookup_empty.
        cbn [default]. by rewrite !Z.add_0_l. }
  change (replicate 7 0) with [0; 0; 0; 0; 0; 0; 0]. rewrite H. done.
Qed.

Section Bars.
Context {R : Runtime}.

Lemma calculate_statistics_tallied results stats :
  calculate_statistics results = Ok stats →
  Forall (λ r, ∃ t, tally_of (attempts r) = Ok t) results.
Proof. intros H. by destruct (statistics_loop_bucket results ∅ stats [] 0 H) as (? & _). Qed.

Lemma calculate_statistics_losses results stats pl yr :
  calculate_statistics results = Ok stats →
  losses (get_year_stats stats pl yr) = Z.of_nat (length (failures (results_of results pl yr))).
Proof.
  intros H. pose proof (calculate_statistics_tallied _ _ H) as Hall.
  destruct (calculate_statistics_get _ _ pl yr H) as (_ & Hlen & ->).
  destruct (fold_count_counts (tallies_of (results_of results pl yr)) new_year_stats)
    as (_ & _ & -> & _). rewrite Hlen, wins_in_tallies_of. cbn [new_year_stats losses].
  assert (Forall (λ r, ∃ t, tally_of (attempts r) = Ok t) (results_of results pl yr)) as HF.
  { unfold results_of. rewrite Forall_forall in Hall. apply Forall_forall.
    intros r [_ Hr]%list_elem_of_filter. by apply Hall. }
  pose proof (wins_losses_split _ HF). unfold failures. lia.
Qed.

Lemma calculate_statistics_years results stats r :
  calculate_statistics results = Ok stats → r ∈ results → year r ∈ all_years stats.
Proof.
  intros H Hr. apply all_years_elem. exists (player r).
  apply (calculate_statistics_get _ _ (player r) (year r) H). intros E.
  assert (r ∈ results_of results (player r) (year r)) as Hin
    by (by apply list_elem_of_filter).
  rewrite E in Hin. by apply elem_of_nil in Hin.
Qed.

Lemma occurrences_wins_cons (n : Z) (r : wordle_result) (l : list wordle_result) :
  occurrences n (omap win_value (r :: l))
  = occurrences n (omap win_value [r]) + occurrences n (omap win_value l).
Proof.
  cbn [omap list_omap]. destruct (win_value r); [|done].
  rewrite !occurrences_cons. unfold occurrences. cbn. lia.
Qed.

Lemma failures_cons (r : wordle_result) (l : list wordle_result) :
  Z.of_nat (length (failures (r :: l)))
  = Z.of_nat (length (failures [r])) + Z.of_nat (length (failures l)).
Proof. unfold failures. rewrite !filter_cons, filter_nil. case_decide; cbn [length]; lia. Qed.

End Bars.

(** For the statistics of [results], the seven bars of a player in the
    third chart are, for each of 1 to 6, the number of the player's wins
    in that many attempts over all the years, then the number of the
    player's failures; added up they give the player's failures and wins
    in 1 to 6 attempts, which is at most the number of the player's
    records: a win in any other number of attempts has no bar. *)
Theorem plot_distribution {R : Runtime} results stats h2h_stats data pl dist :
  calculate_statistics results = Ok stats →
  plot_statistics stats h2h_stats = Ok data →
  (pl, dist) ∈ p_dist data →
  dist = ((λ n, occurrences n (omap win_value (results_by results pl))) <$> seqZ 1 6)
         ++ [Z.of_nat (length (failures (results_by results pl)))]
  ∧ sumZ dist = Z.of_nat (length (displayed (omap win_value (results_by results pl))))
                + Z.of_nat (length (failures (results_by results pl)))
  ∧ sumZ dist ≤ Z.of_nat (length (results_by results pl)).
Proof.
  intros Hs (_ & _ & Hd & _)%plot_statistics_fields Hin. rewrite Hd in Hin.
  apply list_elem_of_fmap in Hin as (pl' & [= <- ->] & _).
  destruct (all_years_sorted stats) as [_ Hnd].
  assert (distribution (default ∅ (stats !! pl)) (all_years stats)
          = ((λ n, occurrences n (omap win_value (results_by results pl))) <$> seqZ 1 6)
            ++ [Z.of_nat (length (failures (results_by results pl)))]) as ->.
  { rewrite distribution_sums. f_equal; [apply list_fmap_ext; intros _ n _|f_equal].
    - rewrite <-(sum_over_years (λ rs, occurrences n (omap win_value rs)) results pl
                   (all_years stats)); [|done|apply occurrences_wins_cons|done|].
      + f_equal. apply list_fmap_ext. intros _ yr _.
        by apply (calculate_statistics_dist results stats pl yr n).
      + intros r Hr _. by eapply calculate_statistics_years.
    - rewrite <-(sum_over_years (λ rs, Z.of_nat (length (failures rs))) results pl
                   (all_years stats)); [|done|apply failures_cons|done|].
      + f_equal. apply list_fmap_ext. intros _ yr _.
        by apply (calculate_statistics_losses results stats pl yr).
      + intros r Hr _. by eapply calculate_statistics_years. }
  split; [done|]. rewrite sumZ_app, occurrences_displayed. cbn [sumZ foldr].
  split; [lia|].
  assert (Forall (λ r, ∃ t, tally_of (attempts r) = Ok t) (results_by results pl)) as HF.
  { pose proof (calculate_statistics_tallied _ _ Hs) as Hall.
    unfold results_by. rewrite Forall_forall in Hall. apply Forall_forall.
    intros r [_ Hr]%list_elem_of_filter. by apply Hall. }
  pose proof (wins_losses_split _ HF) as Hsplit. unfold failures in *.
  pose proof (length_filter (λ n, 1 ≤ n ≤ 6) (omap win_value (results_by results pl))).
  unfold displayed. lia.
Qed.

Lemma plot_distribution_witness :
  ∃ stats data dist,
    @calculate_statistics ascii_runtime two_wins = Ok stats
    ∧ plot_statistics stats ∅ = Ok data
    ∧ (hugo, dist) ∈ p_dist data
    ∧ dist = [0; 0; 1; 0; 0; 0; 0]
    ∧ sumZ dist ≤ Z.of_nat (length (results_by two_wins hugo)).
Proof.
  assert (match @calculate_statistics ascii_runtime two_wins with
          | Ok stats =>
              match plot_statistics stats ∅ with
              | Ok data =>
                  match p_dist data with
                  | (player, _) :: _ => bool_decide (player = hugo)
                  | [] => false
                  end
              | Raise _ => false
              end
          | Raise _ => false
          end = true) as Hok by (vm_compute; reflexivity).
  destruct (@calculate_statistics ascii_runtime two_wins) as [stats|e] eqn:Hs;
    [|discriminate Hok].
  destruct (plot_statistics stats ∅) as [data|e] eqn:Hd; [|discriminate Hok].
  destruct (p_dist data) as [|[player dist] rest] eqn:Hp; [discriminate Hok|].
  apply bool_decide_eq_true in Hok as ->.
  assert ((hugo, dist) ∈ p_dist data) as Hin by (rewrite Hp; apply list_elem_of_here).
  exists stats, data, dist. split; [reflexivity|]. split; [exact Hd|].
  split; [exact Hin|].
  destruct (@plot_distribution ascii_runtime two_wins stats ∅ data hugo dist Hs Hd Hin)
    as (Hdist & _ & Hle).
  split; [|exact Hle]. rewrite Hdist. vm_compute. reflexivity.
Defined.

(** ** The charts of parsed records *)

Lemma int_to_float_Ok (a : Z) : Z.abs a < float_overflow → ∃ q, int_to_float a = Ok q.
Proof.
  intros Ha. unfold int_to_float.
  destruct (Z.leb_spec float_overflow (Z.abs a)); [lia|by eexists].
Qed.

Lemma true_div_half (a : Z) :
  Z.abs a < float_overflow → true_div a 2 = Ok (Qc_of_Z a / Qc_of_Z 2)%Qc.
Proof.
  intros Ha. unfold true_div. cbn [Z.eqb].
  destruct (Z.leb_spec (float_overflow * Z.abs 2) (Z.abs a)); [lia|done].
Qed.

Lemma year_labels_Ok (h s t : Z) :
  0 ≤ h → 0 ≤ s → 0 ≤ t → h + s + t < float_overflow → ∃ labels, year_labels h s t = Ok labels.
Proof.
  intros Hh Hs Ht Hsum. unfold year_labels.
  destruct (Z.ltb_spec 0 (h + t + s)); [|by eexists].
  rewrite (true_div_part h (h + t + s)), (true_div_part s (h + t + s)),
    (true_div_part t (h + t + s)), !true_div_half by lia.
  destruct (int_to_float_Ok h) as [qh ->]; [lia|].
  destruct (int_to_float_Ok (h + s)) as [qhs ->]; [lia|].
  repeat case_match; by eexists.
Qed.

Lemma h2h_series_lookup (field : h2h → Z) (h2h_stats : gmap Z h2h) (years : list Z) (i : nat) :
  field new_h2h = 0 →
  default 0 (h2h_series field h2h_stats years !! i)
  = match years !! i with
    | Some yr => field (year_h2h h2h_stats yr)
    | None => 0
    end.
Proof.
  intros Hf. rewrite h2h_series_year_h2h by done. rewrite list_lookup_fmap.
  by destruct (years !! i).
Qed.

Lemma avg_attempts_bounded (player_stats : gmap Z year_stats) (years : list Z) :
  (∀ yr ys, player_stats !! yr = Some ys → bounded ys) →
  ∃ avg, avg_attempts player_stats years = Ok avg.
Proof.
  intros Hb. unfold avg_attempts. apply mapM_Ok, Forall_forall. intros yr _.
  destruct (player_stats !! yr) as [ys|] eqn:E; [|by eexists].
  destruct (Hb _ _ E) as (Hw & _ & _ & Ha).
  destruct (Z.ltb_spec 0 (wins ys)); [|by eexists].
  rewrite true_div_small by lia. by eexists.
Qed.

Section Charts.
Context {R : Runtime}.

Lemma head_to_head_bounds (results : list wordle_result) (h2h_stats : gmap Z h2h) (yr : Z) :
  calculate_head_to_head results = Ok h2h_stats →
  0 ≤ hugo_wins (year_h2h h2h_stats yr) ∧ 0 ≤ sylvain_wins (year_h2h h2h_stats yr)
  ∧ 0 ≤ ties (year_h2h h2h_stats yr)
  ∧ h2h_total (year_h2h h2h_stats yr) ≤ Z.of_nat (length results).
Proof.
  intros H. destruct (head_to_head_tallied results h2h_stats yr H)
    as (year_puzzles & (H1 & H2 & H3 & H4 & _) & _ & Hc).
  unfold h2h_total. rewrite H4, Hc. rewrite H1, H2, H3. split_and!; try lia.
  destruct (played_results_of results yr hugo) as [Hle _].
  pose proof (subseteq_size (played_by_both results yr) (played results yr hugo)
                (intersection_subseteq_l _ _)).
  pose proof (length_filter (λ r, player r = hugo ∧ year r = yr) results).
  unfold results_of in Hle. lia.
Qed.

Lemma plot_statistics_Ok (results : list wordle_result) (stats : stats_map)
    (h2h_stats : gmap Z h2h) :
  all_buckets bounded stats →
  calculate_head_to_head results = Ok h2h_stats →
  Z.of_nat (length results) < float_overflow →
  ∃ data, plot_statistics stats h2h_stats = Ok data.
Proof.
  intros Hb Hh Hlen. unfold plot_statistics.
  destruct (mapM_Ok (λ player,
              avg ← avg_attempts (default ∅ (stats !! player)) (all_years stats);
              Ok (player, avg)) (sorted_players stats)) as [chart2 ->].
  { apply Forall_forall. intros player [years Hyears]%elem_of_sorted_players.
    rewrite Hyears. simpl.
    destruct (avg_attempts_bounded years (all_years stats)) as [avg ->]; [|by eexists].
    intros yr ys Hys. by eapply (Hb player years yr ys). }
  cbn [mbind result_bind].
  destruct (mapM_Ok (λ i, year_labels
              (default 0 (h2h_series hugo_wins h2h_stats (all_years stats) !! i))
              (default 0 (h2h_series sylvain_wins h2h_stats (all_years stats) !! i))
              (default 0 (h2h_series ties h2h_stats (all_years stats) !! i)))
              (seq 0 (length (all_years stats)))) as [labels ->]; [|by eexists].
  apply Forall_forall. intros i _. rewrite !h2h_series_lookup by done.
  destruct (all_years stats !! i) as [yr|].
  - destruct (head_to_head_bounds results h2h_stats yr Hh) as (? & ? & ? & Ht).
    unfold h2h_total in Ht. apply year_labels_Ok; lia.
  - by eexists.
Qed.

End Charts.

(** On the records [parse_html_files] returns, fewer than the largest
    float, the two aggregations return and [plot_statistics] computes
    all its numbers without raising. *)
Theorem plot_of_parsed_records {R : Runtime} files results :
  parse_html_files files = Ok results →
  Z.of_nat (length results) < float_overflow →
  ∃ stats h2h_stats data,
    calculate_statistics results = Ok stats
    ∧ calculate_head_to_head results = Ok h2h_stats
    ∧ plot_statistics stats h2h_stats = Ok data.
Proof.
  intros Hparse Hlen.
  assert (Forall (λ r, attempts_token (attempts r)) results) as Htok.
  { eapply parse_html_files_Forall; [|exact Hparse].
    intros cp msg r H. by apply extract_Some in H as (_ & _ & ? & _). }
  destruct (calculate_statistics_of_tokens results Htok) as [stats Hstats].
  destruct (puzzles_loop_of_tokens results ∅ Htok) as [puzzles Hpuzzles].
  assert (calculate_head_to_head results = Ok (compare_all puzzles)) as Hh2h
    by (unfold calculate_head_to_head; by rewrite Hpuzzles).
  destruct (plot_statistics_Ok results stats (compare_all puzzles)) as [data Hdata];
    [|done|done|by eauto 10].
  apply (statistics_loop_all bounded one_digit results ∅ stats).
  - unfold bounded. simpl. lia.
  - intros t ys. apply count_bounded.
  - eapply Forall_impl; [exact Htok|]. intros r Hr t. by apply token_tally.
  - intros p y yr ys. by rewrite lookup_empty.
  - exact Hstats.
Qed.

Lemma plot_of_parsed_records_witness :
  @parse_html_files ascii_runtime seven_attempts
  = Ok [sample_result "Hugo Ledoux" 798 "7" 2023 8 26]
  ∧ ∃ stats h2h_stats data,
      @calculate_statistics ascii_runtime [sample_result "Hugo Ledoux" 798 "7" 2023 8 26]
      = Ok stats
      ∧ @calculate_head_to_head ascii_runtime
          [sample_result "Hugo Ledoux" 798 "7" 2023 8 26] = Ok h2h_stats
      ∧ plot_statistics stats h2h_stats = Ok data.
Proof.
  assert (@parse_html_files ascii_runtime seven_attempts
          = Ok [sample_result "Hugo Ledoux" 798 "7" 2023 8 26]) as H
    by (vm_compute; reflexivity).
  split; [exact H|].
  apply (@plot_of_parsed_records ascii_runtime _ _ H). vm_compute. reflexivity.
Defined.

(** ** The bars of the first chart *)

Lemma plot_statistics_totals (stats : stats_map) (h2h_stats : gmap Z h2h) (data : plot_data) :
  plot_statistics stats h2h_stats = Ok data →
  p_totals data
  = (λ player, (player, totals (default ∅ (stats !! player)) (all_years stats)))
      <$> sorted_players stats.
Proof.
  unfold plot_statistics.
  intros (chart2 & _ & (labels & _ & [= <-])%bind_Ok)%bind_Ok. done.
Qed.

Lemma totals_get_year_stats (stats : stats_map) (pl : str) (years : list Z) :
  totals (default ∅ (stats !! pl)) years = (λ yr, total (get_year_stats stats pl yr)) <$> years.
Proof.
  unfold totals, get_year_stats. apply list_fmap_ext. intros _ yr _.
  by destruct (default ∅ (stats !! pl) !! yr).
Qed.

(** For the statistics of [results], the bars of a player in the first
    chart are, year by year of the axis, the number of the player's
    records of that year; added up they give the number of the player's
    records: every record is in one bar and in one only. *)
Theorem plot_totals {R : Runtime} results stats h2h_stats data pl bars :
  calculate_statistics results = Ok stats →
  plot_statistics stats h2h_stats = Ok data →
  (pl, bars) ∈ p_totals data →
  bars = (λ yr, Z.of_nat (length (results_of results pl yr))) <$> p_all_years data
  ∧ sumZ bars = Z.of_nat (length (results_by results pl)).
Proof.
  intros Hs Hd Hin. pose proof (plot_statistics_totals _ _ _ Hd) as Ht.
  apply plot_statistics_fields in Hd as (_ & -> & _). rewrite Ht in Hin.
  apply list_elem_of_fmap in Hin as (pl' & [= <- ->] & _).
  destruct (all_years_sorted stats) as [_ Hnd].
  assert (totals (default ∅ (stats !! pl)) (all_years stats)
          = (λ yr, Z.of_nat (length (results_of results pl yr))) <$> all_years stats) as ->.
  { rewrite totals_get_year_stats. apply list_fmap_ext. intros _ yr _.
    by apply calculate_statistics_total. }
  split; [done|].
  apply (sum_over_years (λ rs, Z.of_nat (length rs)) results pl (all_years stats));
    [done| |done|].
  - intros r l. cbn [length]. lia.
  - intros r Hr _. by eapply calculate_statistics_years.
Qed.

Lemma plot_totals_witness :
  ∃ stats data bars,
    @calculate_statistics ascii_runtime sample_results = Ok stats
    ∧ plot_statistics stats ∅ = Ok data
    ∧ (hugo, bars) ∈ p_totals data
    ∧ bars = [3; 0]
    ∧ sumZ bars = Z.of_nat (length (results_by sample_results hugo)).
Proof.
  assert (match @calculate_statistics ascii_runtime sample_results with
          | Ok stats =>
              match plot_statistics stats ∅ with
              | Ok data =>
                  match p_totals data, p_all_years data with
                  | (player, _) :: _, [y1; y2] =>
                      bool_decide (player = hugo ∧ y1 = 2023 ∧ y2 = 2024)
                  | _, _ => false
                  end
              | Raise _ => false
              end
          | Raise _ => false
          end = true) as Hok by (vm_compute; reflexivity).
  destruct (@calculate_statistics ascii_runtime sample_results) as [stats|e] eqn:Hs;
    [|discriminate Hok].
  destruct (plot_statistics stats ∅) as [data|e] eqn:Hd; [|discriminate Hok].
  destruct (p_totals data) as [|[player bars] rest] eqn:Hp; [discriminate Hok|].
  destruct (p_all_years data) as [|y1 [|y2 [|y3 years]]] eqn:Hy; try discriminate Hok.
  apply bool_decide_eq_true in Hok as (-> & -> & ->).
  assert ((hugo, bars) ∈ p_totals data) as Hin by (rewrite Hp; apply list_elem_of_here).
  exists stats, data, bars. split; [reflexivity|]. split; [exact Hd|].
  split; [exact Hin|].
  destruct (@plot_totals ascii_runtime sample_results stats ∅ data hugo bars Hs Hd Hin)
    as (Hbars & Hsum).
  split; [|exact Hsum]. rewrite Hbars, Hy. vm_compute. reflexivity.
Defined.
